(** * extract_citations.py: text layout, DOI resolution and report rendering

    A shallow embedding of [src/extract_citations.py] and the properties of
    its wrapping, caching and rendering code.

    Conventions of the embedding.
    - A Python [str] is a Rocq [string], one [ascii] per character (the code
      points below 256); [len] is [String.length] seen as an integer. The
      bullet that [format_table] writes is kept as one character, see
      [Extractor.bullet].
    - Python integers are [Z]; [//] and [%] are [Z.div] and [Z.modulo], which
      agree with Python's floor division for a positive divisor.
    - A [dict] with string keys is a [gmap string _]; a dict whose iteration
      order is observed is an association list in insertion order.
    - [None] where a string is expected is [None : option string].
    - The report, the cache file and the answers of the lookup service are
      JSON of the shape the tool is written for: titles, texts, display
      labels and DOIs are strings, corpus ids are integers in the report and
      their decimal text afterwards. Payloads the code only passes along
      are kept as [json].
    - Printing to the terminal is left out; requests, sleeps and the saves
      of the cache file are recorded as events. *)

From Stdlib Require Import ZArith Lia String Ascii DecimalString DecimalZ Sorted Permutation OrderedTypeEx.
From stdpp Require Import base option list gmap strings.

Open Scope Z_scope.

#[global] Set Warnings "-clear-no-such-hyp".

(** ** Python string primitives *)

Module Py.

(** [len(s)] *)
Definition len (s : string) : Z := Z.of_nat (String.length s).

(** [c * n] for a one-character string [c]; a count below one gives [''] *)
Fixpoint repeat_char (c : ascii) (n : nat) : string :=
  match n with
  | O => EmptyString
  | S n' => String c (repeat_char c n')
  end.

Definition times (c : ascii) (n : Z) : string := repeat_char c (Z.to_nat n).

(** [s.ljust(width)]: pads with spaces on the right, never shortens *)
Definition ljust (s : string) (width : Z) : string :=
  s +:+ times " " (width - len s).

(** [str.isspace] on one character: TAB..CR, FS..US, SPACE, NEL, NBSP *)
Definition is_space (c : ascii) : bool :=
  let n := N_of_ascii c in
  ((9 <=? n)%N && (n <=? 13)%N) || ((28 <=? n)%N && (n <=? 32)%N)
  || (n =? 133)%N || (n =? 160)%N.

(** The word being read, if any, is closed. *)
Definition flush (cur : string) : list string :=
  match cur with
  | EmptyString => []
  | _ => [cur]
  end.

(** [s.split()] read left to right; [cur] is the word read so far. *)
Fixpoint split_from (cur : string) (s : string) : list string :=
  match s with
  | EmptyString => flush cur
  | String c s' =>
      if is_space c then flush cur ++ split_from EmptyString s'
      else split_from (cur +:+ String c EmptyString) s'
  end.

(** [s.split()]: the maximal runs of non-whitespace characters *)
Definition split (s : string) : list string := split_from EmptyString s.

(** [sep.join(ls)] *)
Definition join (sep : string) (ls : list string) : string :=
  String.concat sep ls.

(** [sum(len(word) for word in words)] *)
Definition sum_len (words : list string) : Z :=
  fold_right (fun w acc => len w + acc) 0 words.

(** A string without any whitespace character. *)
Fixpoint no_space (s : string) : bool :=
  match s with
  | EmptyString => true
  | String c s' => negb (is_space c) && no_space s'
  end.

(** A word: not empty, no whitespace in it. *)
Definition word (w : string) : Prop := w <> EmptyString /\ no_space w = true.

(** Truth value of a string: [''] is false. *)
Definition truthy (s : string) : bool :=
  match s with
  | EmptyString => false
  | _ => true
  end.

End Py.

(** ** TextLayout: [justify_text] and [wrap_text_justified] *)

Module TextLayout.
Import Py.

(** The loop of [justify_text]: [for i, word in enumerate(words[:-1])] appends
    the word and its gap; the last word is appended after the loop. *)
Fixpoint justify_loop (i : Z) (spaces_per_gap extra_spaces : Z)
    (words : list string) : string :=
  match words with
  | [] => EmptyString
  | [word] => word
  | word :: rest =>
      word
      +:+ times " " (spaces_per_gap + (if i <? extra_spaces then 1 else 0))
      +:+ justify_loop (i + 1) spaces_per_gap extra_spaces rest
  end.

Definition justify_text (text : string) (width : Z) : string :=
  let words := split text in
  if (Z.of_nat (length words) <=? 1) || (width <=? len text) then
    ljust text width
  else
    let total_chars := sum_len words in
    let total_gaps := Z.of_nat (length words) - 1 in
    let total_spaces_needed := width - total_chars in
    if total_gaps =? 0 then ljust text width
    else
      let spaces_per_gap := total_spaces_needed / total_gaps in
      let extra_spaces := total_spaces_needed mod total_gaps in
      justify_loop 0 spaces_per_gap extra_spaces words.

(** The state of the loop of [wrap_text_justified]. *)
Record wrap_state := WrapState {
  lines : list string;
  current_line : list string;
  current_length : Z
}.

Definition render_line (justify : bool) (width : Z) (ws : list string) : string :=
  let line_text := join " " ws in
  if justify then justify_text line_text width else line_text.

Definition wrap_step (width : Z) (justify : bool) (st : wrap_state)
    (word : string) : wrap_state :=
  let word_len := len word in
  if current_length st + word_len + Z.of_nat (length (current_line st)) <=? width
  then WrapState (lines st) (current_line st ++ [word])
                 (current_length st + word_len)
  else
    WrapState
      (match current_line st with
       | [] => lines st
       | _ => lines st ++ [render_line justify width (current_line st)]
       end)
      [word] word_len.

Definition wrap_loop (width : Z) (justify : bool) (words : list string)
    (st : wrap_state) : wrap_state :=
  fold_left (wrap_step width justify) words st.

Definition wrap_finish (st : wrap_state) : list string :=
  let lines' :=
    match current_line st with
    | [] => lines st
    | _ => lines st ++ [join " " (current_line st)]
    end in
  match lines' with
  | [] => [EmptyString]
  | _ => lines'
  end.

Definition wrap_text_justified (text : string) (width : Z) (justify : bool)
    : list string :=
  wrap_finish (wrap_loop width justify (split text) (WrapState [] [] 0)).

(** What the loop of [wrap_text_justified] keeps true when it justifies and
    no word is longer than [width]: the open line holds words, its length
    is counted right, it fits the width with its single spaces, and every
    line flushed so far fills the width. *)
Definition wrap_inv (width : Z) (st : wrap_state) : Prop :=
  Forall word (current_line st)
  /\ current_length st = sum_len (current_line st)
  /\ (current_line st <> [] ->
      sum_len (current_line st) + Z.of_nat (length (current_line st)) - 1 <= width)
  /\ Forall (fun l => len l = width) (lines st).

End TextLayout.

(** What greedy filling means for a list of lines: the first word of each
    line after the first one did not fit at the end of the line before
    it. *)
Module TextLayoutSpec.
Import Py.

Definition breaks_forced (width : Z) (ls : list string) : Prop :=
  forall (i : nat) l1 l2,
    ls !! i = Some l1 -> ls !! S i = Some l2 ->
    exists w rest, split l2 = w :: rest /\ width < len l1 + 1 + len w.

End TextLayoutSpec.

(** ** Data model *)

(** JSON payloads the program carries along without looking inside. *)
#[warnings="-register-all"]
Inductive json :=
| JNull
| JBool (b : bool)
| JNum (n : Z)
| JStr (s : string)
| JArr (items : list json)
| JObj (members : list (string * json)).

(** A row of a table: the dict behind [row.get('id', '')] and
    [row.get('displayValue', 'N/A')]; [None] is a missing key. *)
Record row := Row {
  row_id : option string;
  displayValue : option string
}.

(** The dict given to [format_table]; [None] is a missing key, and
    [tbl_other] holds the keys the code never reads. *)
Record table_data := Table {
  tbl_title : option string;
  tbl_columns : option (list json);
  tbl_rows : option (list row);
  tbl_cells : option json;
  tbl_other : list (string * json)
}.

(** A citation as [extract_sections_with_content] stores it. *)
Record citation := Citation {
  corpus_id : string;
  display : string;
  paper : json
}.

(** A section as [extract_sections_with_content] stores it. *)
Record section := MkSection {
  sec_title : string;
  sec_text : string;
  sec_table : option table_data;
  sec_citations : list citation
}.

(** The report document, before extraction; [None] is a missing key. *)
Record raw_citation := RawCitation {
  rc_corpusId : option Z;
  rc_id : option string;
  rc_paper : option json
}.

Record raw_section := RawSection {
  rs_title : option string;
  rs_text : option string;
  rs_table : option table_data;
  rs_citations : option (list raw_citation)
}.

Record report := Report {
  rep_query : option string;
  rep_sections : option (list raw_section)
}.

(** ** ReportExtractor *)

Module Extractor.
Import Py.

(** [str(n)] for an integer *)
Definition str_int (n : Z) : string := NilZero.string_of_int (Z.to_int n).

(** Truth value of a table dict: the empty dict is false. *)
Definition table_truthy (t : table_data) : bool :=
  match tbl_title t, tbl_columns t, tbl_rows t, tbl_cells t, tbl_other t with
  | None, None, None, None, [] => false
  | _, _, _, _, _ => true
  end.

Definition placeholder : string := "(Table data structure not fully populated)".

(** The bullet of the preview lines, U+2022, is the one character of the
    program above code point 255. It is one character here as it is in
    Python, so that [len] and [ljust] count it once; it is written as the
    character 149, its code in Windows-1252. *)
Definition bullet : ascii := "149"%char.

(** The preview line of a row: two spaces, the bullet, a space and the
    value shown. *)
Definition row_line (r : row) : string :=
  String " " (String " " (String bullet (String " " EmptyString)))
  +:+ default "N/A" (displayValue r).

Definition format_table (table : option table_data) (width : Z) : list string :=
  match table with
  | None => []
  | Some t =>
      if negb (table_truthy t) then []
      else
        let title := default "Table" (tbl_title t) in
        let lines := if truthy title then ["TABLE: " +:+ title; ""] else [] in
        let columns := default [] (tbl_columns t) in
        let rows := default [] (tbl_rows t) in
        if match columns with [] => true | _ => false end
           || match rows with [] => true | _ => false end
        then lines ++ [placeholder]
        else
          let lines := lines ++ ["Table Contents:"] in
          let lines := lines ++ map row_line (take 5 rows) in
          if 5 <? Z.of_nat (length rows)
          then lines ++ ["  ... and " +:+ str_int (Z.of_nat (length rows) - 5)
                         +:+ " more rows"]
          else lines
  end.

(** The inner loop of [extract_sections_with_content]: a record is kept when
    it has both a [corpusId] and an [id]. *)
Definition extract_citation (c : raw_citation) : option citation :=
  match rc_corpusId c, rc_id c with
  | Some cid, Some label =>
      Some (Citation (str_int cid) label (default (JObj []) (rc_paper c)))
  | _, _ => None
  end.

Definition extract_citations (cs : list raw_citation) : list citation :=
  omap extract_citation cs.

(** [clean_text] works by regular-expression substitution; the extraction
    takes it as an argument. *)
Definition extract_sections_with_content (clean_text : string -> string)
    (report_data : report) : list section :=
  match rep_sections report_data with
  | None => []
  | Some secs =>
      map (fun s =>
             MkSection (default "Untitled Section" (rs_title s))
                       (clean_text (default "" (rs_text s)))
                       (rs_table s)
                       (extract_citations (default [] (rs_citations s))))
          secs
  end.

End Extractor.

(** ** DoiResolver *)

Module Resolver.
Import Py.

(** What one [requests.get] of the lookup service does: a body read with its
    [externalIds.DOI] (or [None]); [raise_for_status] raising an [HTTPError]
    with a status code; another [RequestException] (time-out, connection);
    or an exception that [fetch_doi_from_semantic_scholar] does not catch. *)
Inductive response :=
| Body (doi : option string)
| HttpError (status_code : Z)
| RequestFailed
| Uncaught.

(** What the run does to the outside, in order. *)
Inductive event :=
| FetchCall (cid : string)
| Request (cid : string)
| Sleep (seconds : Z)
| SaveCache (cache : gmap string (option string)).

(** The mutable state of a run: the [doi_cache] dict, the number of requests
    sent so far and the events so far. *)
Record world := World {
  doi_cache : gmap string (option string);
  sent : nat;
  trace : list event
}.

(** A computation changes the world and returns a value, or raises: [None]
    is an exception on its way up, the world keeping what was done before. *)
Definition M (A : Type) : Type := world -> option A * world.

#[global] Instance M_ret : MRet M := fun A a w => (Some a, w).

Definition raise {A} : M A := fun w => (None, w).

#[global] Instance M_bind : MBind M := fun A B k m w =>
  match m w with
  | (Some a, w') => k a w'
  | (None, w') => (None, w')
  end.

Definition emit (e : event) : M unit :=
  fun w => (Some tt, World (doi_cache w) (sent w) (trace w ++ [e])).

(** [time.sleep(seconds)] *)
Definition sleep (seconds : Z) : M unit := emit (Sleep seconds).

(** [doi_cache[cid] = doi] *)
Definition cache_set (cid : string) (doi : option string) : M unit :=
  fun w => (Some tt, World (<[cid := doi]> (doi_cache w)) (sent w) (trace w)).

Definition cache_read : M (gmap string (option string)) :=
  fun w => (Some (doi_cache w), w).

(** [save_doi_cache(doi_cache)]: the whole dict is written. *)
Definition save_doi_cache : M unit :=
  fun w => (Some tt, World (doi_cache w) (sent w)
                           (trace w ++ [SaveCache (doi_cache w)])).

(** [requests.get(url, ...)] for a corpus id: the service answers the n-th
    request of the run with [service n]. *)
Definition http_get (service : nat -> response) (cid : string) : M response :=
  fun w => (Some (service (sent w)),
            World (doi_cache w) (S (sent w)) (trace w ++ [Request cid])).

(** [range(n)] *)
Definition range (n : Z) : list Z := map Z.of_nat (seq 0 (Z.to_nat n)).

(** The body of [for attempt in range(max_retries)], over the attempts left. *)
Fixpoint fetch_loop (service : nat -> response) (cid : string)
    (max_retries : Z) (attempts : list Z) : M (option string) :=
  match attempts with
  | [] => mret None
  | attempt :: rest =>
      r ← http_get service cid;
      match r with
      | Body doi => mret doi
      | HttpError status_code =>
          if status_code =? 429 then
            let wait_time := 2 ^ attempt * 3 in
            if attempt <? max_retries - 1 then
              sleep wait_time;; fetch_loop service cid max_retries rest
            else mret None
          else mret None
      | RequestFailed => mret None
      | Uncaught => raise
      end
  end.

Definition fetch_doi_from_semantic_scholar (service : nat -> response)
    (cid : string) (max_retries : Z) : M (option string) :=
  fetch_loop service cid max_retries (range max_retries).

(** The events of a lookup that is answered 429 at each of [attempts]: a
    request at each attempt and a sleep after each but the last. *)
Fixpoint backoff_events (cid : string) (attempts : list Z) : list event :=
  match attempts with
  | [] => []
  | [_] => [Request cid]
  | attempt :: rest =>
      Request cid :: Sleep (2 ^ attempt * 3) :: backoff_events cid rest
  end.

(** What a list of events holds: the delays slept, the ids requested, the
    ids [fetch_doi_from_semantic_scholar] was called with. *)
Definition sleeps (evs : list event) : list Z :=
  omap (fun e => match e with Sleep s => Some s | _ => None end) evs.

Definition requests (evs : list event) : list string :=
  omap (fun e => match e with Request cid => Some cid | _ => None end) evs.

Definition fetch_calls (evs : list event) : list string :=
  omap (fun e => match e with FetchCall cid => Some cid | _ => None end) evs.

(** [for item in items: body(item)] *)
Fixpoint for_each {A} (items : list A) (body : A -> M unit) : M unit :=
  match items with
  | [] => mret tt
  | x :: rest => body x;; for_each rest body
  end.

End Resolver.

(** ** The legacy citation file *)

Module Legacy.
Import Py.

Fixpoint lstrip (s : string) : string :=
  match s with
  | EmptyString => EmptyString
  | String c s' => if is_space c then lstrip s' else s
  end.

Fixpoint rstrip (s : string) : string :=
  match s with
  | EmptyString => EmptyString
  | String c s' =>
      match rstrip s' with
      | EmptyString => if is_space c then EmptyString else String c EmptyString
      | r => String c r
      end
  end.

(** [s.strip()] *)
Definition strip (s : string) : string := rstrip (lstrip s).

(** [sub in s] *)
Fixpoint contains (sub s : string) : bool :=
  String.prefix sub s
  || match s with
     | EmptyString => false
     | String _ s' => contains sub s'
     end.

(** The longest prefix of characters satisfying [p], and the rest. *)
Fixpoint span (p : ascii -> bool) (s : string) : string * string :=
  match s with
  | EmptyString => (EmptyString, EmptyString)
  | String c s' =>
      if p c then let '(a, b) := span p s' in (String c a, b)
      else (EmptyString, s)
  end.

Definition is_char (c d : ascii) : bool := Ascii.eqb c d.

(** [re.match(r'\(([^)]+)\)\s*->\s*(.+)', line)] and its two groups. The
    line is stripped before, so what follows the arrow ends with a character
    that is no whitespace and the greedy [\s*] gives nothing back; [.] stops
    at a line feed. *)
Definition match_citation_line (line : string) : option (string * string) :=
  match line with
  | String "("%char rest =>
      match span (fun c => negb (is_char c ")")) rest with
      | (String a g1, String _ after_paren) =>
          match lstrip after_paren with
          | String "-"%char (String ">"%char after_arrow) =>
              match fst (span (fun c => negb (is_char c "010")) (lstrip after_arrow)) with
              | EmptyString => None
              | g2 => Some (String a g1, g2)
              end
          | _ => None
          end
      | _ => None
      end
  | _ => None
  end.

(** One turn of [for line in f]. *)
Definition parse_line (citation_map : gmap string string) (line : string)
    : gmap string string :=
  let line := strip line in
  if negb (truthy line) || negb (contains "->" line) then citation_map
  else
    match match_citation_line line with
    | Some (g1, g2) => <[strip g1 := strip g2]> citation_map
    | None => citation_map
    end.

(** [parse_citation_text_file]: [None] when the file does not exist, else
    the lines of the file. *)
Definition parse_citation_text_file (file : option (list string))
    : gmap string string :=
  match file with
  | None => ∅
  | Some file_lines => fold_left parse_line file_lines ∅
  end.

End Legacy.

(** ** The lines of a text file *)

Module LegacyFile.
Import Py Legacy.

Definition LF : ascii := "010"%char.
Definition CR : ascii := "013"%char.

(** What [open(path, 'r')] does to the line ends of the text it reads: a
    carriage return, with the line feed that follows it if there is one,
    becomes a line feed. [after_cr] says that the character before was a
    carriage return. *)
Fixpoint translate (after_cr : bool) (s : string) : string :=
  match s with
  | EmptyString => EmptyString
  | String c rest =>
      if Ascii.eqb c CR then String LF (translate true rest)
      else if Ascii.eqb c LF then
        if after_cr then translate false rest
        else String LF (translate false rest)
      else String c (translate false rest)
  end.

(** The lines of a translated text: each ends with its line feed, but for a
    last line that has none; [cur] is the line being read. *)
Fixpoint lines_from (cur : string) (s : string) : list string :=
  match s with
  | EmptyString => flush cur
  | String c rest =>
      if Ascii.eqb c LF
      then (cur +:+ String LF EmptyString) :: lines_from EmptyString rest
      else lines_from (cur +:+ String c EmptyString) rest
  end.

(** The lines that [for line in f] gives for a file of text [content]. *)
Definition file_lines (content : string) : list string :=
  lines_from EmptyString (translate false content).

End LegacyFile.

(** ** [clean_text] *)

Module Cleaner.
Import Py Legacy.

Definition dquote : ascii := "034"%char.

(** A literal of a pattern at the start of [s]: what follows it. *)
Fixpoint strip_prefix (p s : string) : option string :=
  match p with
  | EmptyString => Some s
  | String a p' =>
      match s with
      | String b s' => if Ascii.eqb a b then strip_prefix p' s' else None
      | EmptyString => None
      end
  end.

Definition lit_title : string := "paperTitle=" +:+ String dquote EmptyString.

(** The pattern after the literal [paperTitle=] and its quote, at the start
    of [s]: one or more characters that are no quote (the group), a quote,
    characters that are no [>], then [></Paper>]. It gives the group and
    what follows the match. Each greedy run has to end where its class
    ends, at the quote and at the [>] that the pattern asks for next. *)
Definition match_title (s : string) : option (string * string) :=
  match span (fun c => negb (is_char c dquote)) s with
  | (String a g, String _ after_quote) =>
      match strip_prefix "></Paper>"
              (snd (span (fun c => negb (is_char c ">")) after_quote)) with
      | Some rest => Some (String a g, rest)
      | None => None
      end
  | _ => None
  end.

(** The pattern after [<Paper], at the start of [s]: characters that are no
    [>], the literal [paperTitle=] with its quote, then [match_title]. The
    greedy run first goes to the next [>] and then gives characters back
    one at a time: the literal is tried at the rightmost place first. *)
Fixpoint match_attrs (s : string) : option (string * string) :=
  match s with
  | EmptyString => None
  | String c s' =>
      if is_char c ">" then None
      else
        match match_attrs s' with
        | Some r => Some r
        | None =>
            match strip_prefix lit_title s with
            | Some t => match_title t
            | None => None
            end
        end
  end.

(** The whole pattern of line 105 at the start of [s]. *)
Definition match_paper (s : string) : option (string * string) :=
  match strip_prefix "<Paper" s with
  | Some t => match_attrs t
  | None => None
  end.

(** [re.sub] of line 105, left to right; [skip] characters of [s] belong to
    a match already replaced. *)
Fixpoint sub_paper_from (skip : nat) (s : string) : string :=
  match s with
  | EmptyString => EmptyString
  | String c s' =>
      match skip with
      | S k => sub_paper_from k s'
      | O =>
          match match_paper s with
          | Some (g, rest) =>
              g +:+ sub_paper_from (String.length s' - String.length rest) s'
          | None => String c (sub_paper_from 0 s')
          end
      end
  end.

Definition sub_paper (s : string) : string := sub_paper_from 0 s.

Fixpoint has_char (c : ascii) (s : string) : bool :=
  match s with
  | EmptyString => false
  | String d s' => is_char d c || has_char c s'
  end.

(** [[^>]+>] at the start of [s]: one character that is no [>], and a [>]
    somewhere after it. *)
Definition tag_start (s : string) : bool :=
  match s with
  | EmptyString => false
  | String d t => negb (is_char d ">") && has_char ">" t
  end.

(** [re.sub(r'<[^>]+>', '', text)], left to right; [in_tag] while the
    characters read belong to a tag being removed. *)
Fixpoint remove_tags_from (in_tag : bool) (s : string) : string :=
  match s with
  | EmptyString => EmptyString
  | String c s' =>
      if in_tag then remove_tags_from (negb (is_char c ">")) s'
      else if is_char c "<" && tag_start s' then remove_tags_from true s'
      else String c (remove_tags_from false s')
  end.

Definition remove_tags (s : string) : string := remove_tags_from false s.

(** [re.sub(r'\s+', ' ', text)]; [in_run] after a whitespace character. *)
Fixpoint collapse_from (in_run : bool) (s : string) : string :=
  match s with
  | EmptyString => EmptyString
  | String c s' =>
      if is_space c then
        if in_run then collapse_from true s'
        else String " " (collapse_from true s')
      else String c (collapse_from false s')
  end.

Definition collapse (s : string) : string := collapse_from false s.

Definition clean_text (text : string) : string :=
  strip (collapse (remove_tags (sub_paper text))).

(** No [=] in [s] before its first [>]. *)
Fixpoint no_eq_run (s : string) : bool :=
  match s with
  | EmptyString => true
  | String c s' =>
      if is_char c ">" then true else negb (is_char c "=") && no_eq_run s'
  end.

(** A place in [s] where [<[^>]+>] matches. *)
Fixpoint has_tag (s : string) : bool :=
  match s with
  | EmptyString => false
  | String c s' => (is_char c "<" && tag_start s') || has_tag s'
  end.

End Cleaner.

(** ** ReportRenderer *)

Module Renderer.
Import Py TextLayout Extractor.

Definition left_width : Z := 95.
Definition right_width : Z := 80.

(** The nested loops [for section in sections: for citation in
    section['citations']] visit these citations, in this order. *)
Definition citations_of (sections : list section) : list citation :=
  flat_map sec_citations sections.

(** [doi_cache.get(corpus_id)] *)
Definition cache_get (cache : gmap string (option string)) (cid : string)
    : option string :=
  default None (cache !! cid).

(** The [all_references] dict, in insertion order; one turn of the loop
    that fills it. *)
Definition add_reference (cache : gmap string (option string))
    (all_references : list (string * option string)) (c : citation)
    : list (string * option string) :=
  let display_name := display c in
  let doi := cache_get cache (corpus_id c) in
  if decide (display_name ∈ all_references.*1) then all_references
  else all_references ++ [(display_name, doi)].

Definition build_references (cache : gmap string (option string))
    (sections : list section) : list (string * option string) :=
  fold_left (add_reference cache) (citations_of sections) [].

(** [sorted] on the items of a dict: the keys differ, so two items compare
    by their keys, and strings compare by code point. *)
Definition item_lt (a b : string * option string) : bool :=
  String.ltb (fst a) (fst b).

Fixpoint insert_item (x : string * option string)
    (l : list (string * option string)) : list (string * option string) :=
  match l with
  | [] => [x]
  | y :: l' => if item_lt y x then y :: insert_item x l' else x :: l
  end.

Definition sorted (l : list (string * option string))
    : list (string * option string) :=
  fold_right insert_item [] l.

(** The line of one reference; [if ref_doi:] is false for [None] and for
    the empty string. *)
Definition ref_line (ref : string * option string) : string :=
  let '(ref_name, ref_doi) := ref in
  let doi_url :=
    match ref_doi with
    | Some d => if truthy d then "https://doi.org/" +:+ d else "NO DOI FOUND"
    | None => "NO DOI FOUND"
    end in
  ref_name +:+ " -> " +:+ doi_url.

Definition reference_lines (cache : gmap string (option string))
    (sections : list section) : list string :=
  map ref_line (sorted (build_references cache sections)).

Definition right_content (cache : gmap string (option string))
    (sections : list section) : list string :=
  [times "=" right_width; ""; times "=" right_width; "";
   times "=" right_width; "REFERENCES (Alphabetical)"; times "=" right_width]
  ++ reference_lines cache sections
  ++ [times "=" right_width].

Definition section_lines (s : section) : list string :=
  [times "-" left_width; "SECTION: " +:+ sec_title s; times "-" left_width; ""]
  ++ (if truthy (sec_text s)
      then wrap_text_justified (sec_text s) (left_width - 1) true ++ [""]
      else [])
  ++ (match sec_table s with
      | Some t =>
          if table_truthy t
          then [""] ++ format_table (sec_table s) (left_width - 1) ++ [""]
          else []
      | None => []
      end).

Definition left_content (query : string) (sections : list section)
    : list string :=
  [times "=" left_width; "RESEARCH QUERY"; times "=" left_width]
  ++ wrap_text_justified query (left_width - 1) false
  ++ [times "=" left_width]
  ++ flat_map section_lines sections
  ++ [times "=" left_width].

(** The reference list as the specification words it: the DOI kept for a
    display name is the one of the first citation shown under that name, and
    the names are in ascending order. *)
Fixpoint first_doi (cache : gmap string (option string)) (name : string)
    (cs : list citation) : option (option string) :=
  match cs with
  | [] => None
  | c :: rest =>
      if decide (display c = name) then Some (cache_get cache (corpus_id c))
      else first_doi cache name rest
  end.


Definition newline : string := String "010" EmptyString.

(** The strings given to [f.write], one for each [i] of
    [range(max_lines)]. *)
Definition write_columns (left_content right_content : list string)
    : list string :=
  let max_lines := Nat.max (length left_content) (length right_content) in
  map (fun i =>
         let left := default "" (left_content !! i) in
         let right := default "" (right_content !! i) in
         ljust left left_width +:+ " | " +:+ right +:+ newline)
      (seq 0 max_lines).

End Renderer.

(** ** The run: [main] *)

Module Main.
Import Py Extractor Resolver Legacy Renderer.

(** [unique_corpus_ids], filled by the first pair of loops. *)
Definition unique_corpus_ids (sections : list section) : gset string :=
  fold_left (fun ids c => ids ∪ {[corpus_id c]}) (citations_of sections) ∅.

(** The order in which [for corpus_id in unique_corpus_ids] visits the set:
    some enumeration of it without repetition. *)
Definition set_order (ids : gset string) : list string := elements ids.

(** One turn of the loop that matches the legacy file with the report. *)
Definition import_citation (citation_text_map : gmap string string)
    (imported : Z) (c : citation) : M Z :=
  cache ← cache_read;
  match citation_text_map !! display c, cache !! corpus_id c with
  | Some doi, None => cache_set (corpus_id c) (Some doi);; mret (imported + 1)
  | _, _ => mret imported
  end.

Fixpoint import_loop (citation_text_map : gmap string string)
    (cs : list citation) (imported : Z) : M Z :=
  match cs with
  | [] => mret imported
  | c :: rest =>
      imported' ← import_citation citation_text_map imported c;
      import_loop citation_text_map rest imported'
  end.

(** Lines 293-309: the legacy-import merge. *)
Definition import_legacy (citation_text_map : gmap string string)
    (sections : list section) : M unit :=
  if decide (citation_text_map = ∅) then mret tt
  else
    imported ← import_loop citation_text_map (citations_of sections) 0;
    if 0 <? imported then save_doi_cache else mret tt.

(** Lines 314-320: the ids that are no key of the cache. *)
Definition select_to_fetch (ids : list string) : M (list string) :=
  cache ← cache_read;
  mret (filter (fun cid => cache !! cid = None) ids).

(** Lines 326-340: [for i, corpus_id in enumerate(to_fetch, 1)]; [total] is
    [len(to_fetch)]. *)
Fixpoint fetch_all (service : nat -> response) (total : Z) (i : Z)
    (to_fetch : list string) (fetch_count : Z) : M Z :=
  match to_fetch with
  | [] => mret fetch_count
  | cid :: rest =>
      emit (FetchCall cid);;
      doi ← fetch_doi_from_semantic_scholar service cid 5;
      cache_set cid doi;;
      (if i <? total then sleep 2 else mret tt);;
      fetch_all service total (i + 1) rest (fetch_count + 1)
  end.

(** Lines 273-346: everything between extraction and rendering. *)
Definition resolve_all (service : nat -> response)
    (citation_text_map : gmap string string) (sections : list section)
    : M unit :=
  let ids := unique_corpus_ids sections in
  import_legacy citation_text_map sections;;
  to_fetch ← select_to_fetch (set_order ids);
  fetch_count ← fetch_all service (Z.of_nat (length to_fetch)) 1 to_fetch 0;
  if 0 <? fetch_count then save_doi_cache else mret tt.

(** Lines 348-433: what is written to the output file. *)
Definition render (query : string) (sections : list section) : M (list string) :=
  cache ← cache_read;
  mret (write_columns (left_content query sections)
                      (right_content cache sections)).

(** [main] once the report is read: the world starts with the loaded cache;
    [legacy_file] is the content of [trialreport.txt], if it exists. *)
Definition main (clean_text : string -> string) (service : nat -> response)
    (report_data : report) (legacy_file : option (list string))
    : M (list string) :=
  let query := default "No query found" (rep_query report_data) in
  let sections := extract_sections_with_content clean_text report_data in
  let citation_text_map := parse_citation_text_file legacy_file in
  resolve_all service citation_text_map sections;;
  render query sections.

End Main.

(** * Properties *)

(** ** Strings *)

Module PyFacts.
Import Py.

Lemma len_nonneg s : 0 <= len s.
Proof. unfold len. lia. Qed.

Lemma sapp_empty_l s : EmptyString +:+ s = s.
Proof. reflexivity. Qed.

Lemma sapp_cons c a b : String c a +:+ b = String c (a +:+ b).
Proof. reflexivity. Qed.

Lemma len_cons c s : len (String c s) = 1 + len s.
Proof. unfold len. cbn [String.length]. rewrite Nat2Z.inj_succ. lia. Qed.

Lemma len_empty : len EmptyString = 0.
Proof. reflexivity. Qed.

Lemma len_app a b : len (a +:+ b) = len a + len b.
Proof.
  induction a as [|c a IH]; [by rewrite sapp_empty_l, len_empty|].
  rewrite sapp_cons, !len_cons, IH. lia.
Qed.

Lemma len_zero_empty s : len s = 0 -> s = EmptyString.
Proof. destruct s; [done|]. rewrite len_cons. pose proof (len_nonneg s). lia. Qed.

Lemma len_repeat_char c n : len (repeat_char c n) = Z.of_nat n.
Proof.
  induction n as [|n IH]; [done|].
  cbn [repeat_char]. rewrite len_cons, IH. lia.
Qed.

Lemma len_times c n : len (times c n) = Z.max 0 n.
Proof. unfold times. rewrite len_repeat_char. lia. Qed.

Lemma len_ljust s width : len (ljust s width) = Z.max (len s) width.
Proof. unfold ljust. rewrite len_app, len_times. lia. Qed.

Lemma sapp_empty_r s : s +:+ EmptyString = s.
Proof. induction s as [|c s IH]; [done|]. by rewrite sapp_cons, IH. Qed.

Lemma sapp_assoc a b c : (a +:+ b) +:+ c = a +:+ (b +:+ c).
Proof. induction a as [|x a IH]; [done|]. by rewrite !sapp_cons, IH. Qed.

Lemma no_space_app a b : no_space (a +:+ b) = no_space a && no_space b.
Proof.
  induction a as [|c a IH]; [done|].
  rewrite sapp_cons. cbn [no_space]. rewrite IH. by rewrite andb_assoc.
Qed.

Lemma flush_word cur : no_space cur = true -> Forall word (flush cur).
Proof.
  intros H. destruct cur; simpl; [constructor|].
  constructor; [|constructor]. by split.
Qed.

Lemma split_from_words s : forall cur,
  no_space cur = true -> Forall word (split_from cur s).
Proof.
  induction s as [|c s IH]; intros cur Hcur; simpl.
  - by apply flush_word.
  - destruct (is_space c) eqn:Hc.
    + apply Forall_app. split; [by apply flush_word | by apply IH].
    + apply IH. rewrite no_space_app, Hcur. simpl. by rewrite Hc.
Qed.

(** The words of [split] are not empty and hold no whitespace. *)
Lemma split_words s : Forall word (split s).
Proof. by apply split_from_words. Qed.

Lemma split_from_no_space w : forall cur s,
  no_space w = true ->
  split_from cur (w +:+ s) = split_from (cur +:+ w) s.
Proof.
  induction w as [|c w IH]; intros cur s Hw.
  - by rewrite sapp_empty_r, sapp_empty_l.
  - cbn [no_space] in Hw. apply andb_prop in Hw as [Hc Hw].
    apply negb_true_iff in Hc. rewrite sapp_cons. cbn [split_from].
    rewrite Hc, IH by done. by rewrite sapp_assoc.
Qed.

Lemma flush_nonempty w : w <> EmptyString -> flush w = [w].
Proof. by destruct w. Qed.

Lemma join_cons sep w ws :
  ws <> [] -> join sep (w :: ws) = w +:+ sep +:+ join sep ws.
Proof. by destruct ws. Qed.

Lemma join_singleton sep w : join sep [w] = w.
Proof. done. Qed.

(** Splitting the words joined by single spaces gives the words back. *)
Lemma split_join ws : Forall word ws -> split (join " " ws) = ws.
Proof.
  unfold split. induction 1 as [|w ws [Hne Hw] Hws IH]; [done|].
  destruct ws as [|w' ws].
  - rewrite join_singleton. rewrite <- (sapp_empty_r w) at 1.
    rewrite split_from_no_space by done. simpl. by apply flush_nonempty.
  - rewrite join_cons by done.
    rewrite split_from_no_space by done.
    rewrite sapp_cons, sapp_empty_l. cbn [split_from].
    replace (is_space " ") with true by done.
    rewrite sapp_empty_l, flush_nonempty by done. by rewrite IH.
Qed.

Lemma join_app sep a b :
  a <> [] -> b <> [] ->
  join sep (a ++ b) = join sep a +:+ sep +:+ join sep b.
Proof.
  induction a as [|x a IH]; intros Ha Hb; [done|].
  destruct a as [|y a].
  - simpl app. by rewrite join_cons.
  - change ((x :: y :: a) ++ b) with (x :: (y :: a) ++ b).
    rewrite !join_cons by done. rewrite IH by done.
    by rewrite !sapp_assoc.
Qed.

Lemma sum_len_app a b : sum_len (a ++ b) = sum_len a + sum_len b.
Proof. induction a as [|x a IH]; simpl; [done|]. unfold sum_len in *. simpl. lia. Qed.

Lemma sum_len_cons w ws : sum_len (w :: ws) = len w + sum_len ws.
Proof. done. Qed.

Lemma sum_len_nonneg ws : 0 <= sum_len ws.
Proof.
  induction ws as [|w ws IH]; [done|].
  rewrite sum_len_cons. pose proof (len_nonneg w). lia.
Qed.

(** The length of a line of words separated by single spaces. *)
Lemma len_join ws :
  ws <> [] -> len (join " " ws) = sum_len ws + Z.of_nat (length ws) - 1.
Proof.
  induction ws as [|w ws IH]; [done|]. intros _.
  destruct ws as [|w' ws].
  - rewrite join_singleton, sum_len_cons. simpl. lia.
  - rewrite join_cons by done. rewrite !len_app, IH by done.
    rewrite (sum_len_cons w). cbn [length]. rewrite len_cons, len_empty.
    rewrite !Nat2Z.inj_succ. lia.
Qed.

End PyFacts.

(** ** TextLayout *)

Module TextLayoutFacts.
Import Py PyFacts TextLayout.

Lemma justify_loop_cons i q r w w' ws :
  justify_loop i q r (w :: w' :: ws)
  = w +:+ times " " (q + (if i <? r then 1 else 0))
      +:+ justify_loop (i + 1) q r (w' :: ws).
Proof. reflexivity. Qed.

(** The loop of [justify_text] from gap [i] on: the words, [q] spaces in
    each gap, and one more in the gaps numbered below [r]. *)
Lemma len_justify_loop ws : forall w i q r,
  0 <= q ->
  len (justify_loop i q r (w :: ws))
  = sum_len (w :: ws) + q * Z.of_nat (length ws)
    + Z.max 0 (Z.min (i + Z.of_nat (length ws)) r - i).
Proof.
  induction ws as [|w' ws IH]; intros w i q r Hq.
  - cbn [justify_loop length]. rewrite sum_len_cons. cbn [sum_len fold_right]. lia.
  - rewrite justify_loop_cons, !len_app, len_times, IH by done.
    rewrite (sum_len_cons w). cbn [length]. rewrite Nat2Z.inj_succ.
    destruct (Z.ltb_spec i r); lia.
Qed.

(** A line of words that fits the width is justified to the width. *)
Lemma len_justify_text ws width :
  Forall word ws -> ws <> [] ->
  sum_len ws + Z.of_nat (length ws) - 1 <= width ->
  len (justify_text (join " " ws) width) = width.
Proof.
  intros Hws Hne Hfit. unfold justify_text.
  rewrite split_join by done.
  pose proof (len_join ws Hne) as Hlen.
  destruct (_ || _) eqn:Hcond.
  { rewrite len_ljust. lia. }
  apply orb_false_elim in Hcond as [Hwords Hwidth].
  apply Z.leb_gt in Hwords, Hwidth.
  destruct (Z.eqb_spec (Z.of_nat (length ws) - 1) 0) as [|Hgaps]; [lia|].
  destruct ws as [|w ws]; [done|].
  cbn [length] in *. rewrite Nat2Z.inj_succ in *.
  set (gaps := Z.succ (Z.of_nat (length ws)) - 1) in *.
  set (spaces := width - sum_len (w :: ws)) in *.
  assert (Hg : 0 < gaps) by lia.
  pose proof (Z.mod_pos_bound spaces gaps Hg) as Hmod.
  pose proof (Z.div_mod spaces gaps ltac:(lia)) as Hdm.
  assert (Hq : 0 <= spaces / gaps) by (apply Z.div_pos; lia).
  rewrite len_justify_loop by done.
  replace (Z.of_nat (length ws)) with gaps by lia.
  rewrite Z.min_r by lia. lia.
Qed.

(** A line of one word shorter than the width is the word, padded on the
    right to the width. *)
Lemma justify_single_word w width :
  word w -> len w < width ->
  justify_text w width = w +:+ times " " (width - len w)
  /\ len (justify_text w width) = width.
Proof.
  intros Hw Hlt. unfold justify_text.
  assert (split w = [w]) as ->.
  { rewrite <- (join_singleton " " w) at 1. apply split_join. by constructor. }
  change ((Z.of_nat (length [w]) <=? 1) || (width <=? len w)) with true.
  split; [done|]. rewrite len_ljust. lia.
Qed.

Lemma wrap_inv_init width : wrap_inv width (WrapState [] [] 0).
Proof. repeat split; try constructor; done. Qed.

Lemma wrap_step_inv width st w :
  wrap_inv width st -> word w -> len w <= width ->
  wrap_inv width (wrap_step width true st w).
Proof.
  intros (Hcl & Hlen & Hfit & Hlines) Hw Hle. unfold wrap_step.
  destruct (Z.leb_spec (current_length st + len w
                        + Z.of_nat (length (current_line st))) width) as [Hok|Hover].
  - repeat split; cbn [current_line current_length lines].
    + apply Forall_app. split; [done | by constructor].
    + rewrite sum_len_app, Hlen. cbn. lia.
    + intros _. rewrite sum_len_app, length_app, Nat2Z.inj_add. cbn. lia.
    + done.
  - repeat split; cbn [current_line current_length lines].
    + by constructor.
    + cbn. lia.
    + intros _. cbn. lia.
    + destruct (current_line st) as [|x cl] eqn:Hx; [done|].
      apply Forall_app. split; [done|]. constructor; [|constructor].
      unfold render_line. apply len_justify_text; [done | done |].
      by apply Hfit.
Qed.

Lemma wrap_loop_cons width justify w ws st :
  wrap_loop width justify (w :: ws) st
  = wrap_loop width justify ws (wrap_step width justify st w).
Proof. reflexivity. Qed.

Lemma wrap_loop_inv width ws : forall st,
  wrap_inv width st -> Forall word ws -> Forall (fun w => len w <= width) ws ->
  wrap_inv width (wrap_loop width true ws st).
Proof.
  induction ws as [|w ws IH]; intros st Hst Hws Hle; [done|].
  inversion Hws; inversion Hle; subst.
  apply IH; [|done|done]. by apply wrap_step_inv.
Qed.

(** All lines but the last one of [wrap_finish] are the flushed lines. *)
Lemma wrap_finish_body st :
  exists body last,
    wrap_finish st = body ++ [last]
    /\ (forall l, l ∈ body -> l ∈ lines st).
Proof.
  unfold wrap_finish. destruct (current_line st) as [|x cl].
  - destruct (lines st) as [|l ls] using rev_ind.
    + exists [], EmptyString. split; [done|]. by intros l Hl.
    + exists ls, l. split; [by destruct ls | ].
      intros l' Hl'. apply elem_of_app. by left.
  - exists (lines st), (join " " (x :: cl)). split; [by destruct (lines st)|done].
Qed.

(** The unjustified loop keeps the words: the flushed lines, joined, read as
    the words [p] put on them, and [p] with the open line is all the words
    seen so far. *)
Lemma wrap_loop_words width ws : forall st p,
  join " " (lines st) = join " " p -> (lines st = [] <-> p = []) ->
  exists p',
    join " " (lines (wrap_loop width false ws st)) = join " " p'
    /\ (lines (wrap_loop width false ws st) = [] <-> p' = [])
    /\ p' ++ current_line (wrap_loop width false ws st)
       = p ++ current_line st ++ ws.
Proof.
  induction ws as [|w ws IH]; intros st p Hj Hnil.
  - exists p. by rewrite app_nil_r.
  - rewrite wrap_loop_cons. unfold wrap_step. cbv zeta.
    destruct (Z.leb _ width).
    + destruct (IH (WrapState (lines st) (current_line st ++ [w])
                              (current_length st + len w)) p Hj Hnil)
        as (p' & H1 & H2 & H3).
      exists p'. split; [done|]. split; [done|].
      rewrite H3. cbn [current_line]. by rewrite <- !app_assoc.
    + destruct (current_line st) as [|x cl] eqn:Hcl.
      * destruct (IH (WrapState (lines st) [w] (len w)) p Hj Hnil)
          as (p' & H1 & H2 & H3).
        exists p'. split; [done|]. split; [done|]. by rewrite H3.
      * destruct (IH (WrapState (lines st ++ [render_line false width (x :: cl)])
                                [w] (len w)) (p ++ x :: cl))
          as (p' & H1 & H2 & H3).
        { cbn [lines render_line].
          destruct (lines st) as [|l ls] eqn:Hl.
          - assert (p = []) as -> by by apply Hnil. done.
          - assert (p <> []) by (intros Hp; by apply Hnil in Hp).
            rewrite !join_app by done. by rewrite Hj. }
        { cbn [lines]. split; intros H; by destruct (lines st), p. }
        exists p'. split; [done|]. split; [done|].
        rewrite H3. cbn [current_line]. by rewrite <- !app_assoc.
Qed.

(** Without justification the lines of the wrapped text, joined by single
    spaces, are the words of the text joined by single spaces. *)
Lemma join_wrap text width :
  join " " (wrap_text_justified text width false) = join " " (split text).
Proof.
  unfold wrap_text_justified.
  destruct (wrap_loop_words width (split text) (WrapState [] [] 0) [])
    as (p & H1 & H2 & H3); [done|done|].
  cbn [current_line app] in H3.
  set (st := wrap_loop width false (split text) (WrapState [] [] 0)) in *.
  clearbody st. rewrite <- H3. clear H3.
  unfold wrap_finish. destruct (current_line st) as [|x cl].
  - rewrite app_nil_r. destruct (lines st) as [|l ls] eqn:Hl.
    + assert (p = []) as -> by by apply H2. done.
    + exact H1.
  - destruct (lines st) as [|l ls] eqn:Hl.
    + assert (p = []) as -> by by apply H2. done.
    + assert (p <> []) by (intros Hp; by apply H2 in Hp).
      assert (Hne : (l :: ls) ++ [join " " (x :: cl)] <> []) by done.
      destruct ((l :: ls) ++ [join " " (x :: cl)]) eqn:E; [done|].
      rewrite <- E. rewrite !join_app by done. by rewrite H1.
Qed.

(** A text that is its own words joined by single spaces comes back as it
    was. *)
Lemma join_wrap_single_spaced text width :
  join " " (split text) = text ->
  join " " (wrap_text_justified text width false) = text.
Proof. intros H. by rewrite join_wrap. Qed.

(** C4, as amended: when no word of the text is longer than the width, every
    line of [wrap_text_justified text width True] but the last one is
    exactly [width] characters long. *)
Theorem wrap_justified_line_width text width i line :
  Forall (fun w => len w <= width) (split text) ->
  wrap_text_justified text width true !! i = Some line ->
  (S i < length (wrap_text_justified text width true))%nat ->
  len line = width.
Proof.
  intros Hle Hi Hlast. unfold wrap_text_justified in *.
  pose proof (wrap_loop_inv width (split text) _ (wrap_inv_init width)
                (split_words text) Hle) as (_ & _ & _ & Hlines).
  destruct (wrap_finish_body
              (wrap_loop width true (split text) (WrapState [] [] 0)))
    as (body & last & Heq & Hbody).
  rewrite Heq in Hi, Hlast. rewrite length_app in Hlast. cbn in Hlast.
  rewrite lookup_app_l in Hi by lia.
  apply list_elem_of_lookup_2, Hbody in Hi.
  by apply (proj1 (Forall_forall _ _) Hlines).
Qed.

Lemma wrap_justified_line_width_witness : len "the   quick" = 11.
Proof.
  apply (wrap_justified_line_width "the quick brown fox" 11 0 "the   quick").
  - repeat constructor; vm_compute; discriminate.
  - reflexivity.
  - vm_compute. lia.
Defined.

(** C4 as stated fails: a word longer than the width is never split, and its
    line, justified, is longer than the width. *)
Lemma wrap_justified_long_word :
  wrap_text_justified "abcdef gh" 3 true !! 0%nat = Some "abcdef"
  /\ (1 < length (wrap_text_justified "abcdef gh" 3 true))%nat
  /\ len "abcdef" <> 3.
Proof. split; [reflexivity|]. split; [vm_compute; lia | discriminate]. Qed.

(** C5, as amended: for every text and every width, the lines of
    [wrap_text_justified text width] joined by single spaces are the words of
    the text joined by single spaces, so that splitting them again gives the
    words of the text, each once and in order. *)
Theorem wrap_keeps_words text width :
  join " " (wrap_text_justified text width false) = join " " (split text)
  /\ split (join " " (wrap_text_justified text width false)) = split text.
Proof.
  split; [apply join_wrap|].
  rewrite join_wrap. apply split_join, split_words.
Qed.

(** C5 as stated fails: the text itself does not come back when its words
    are not separated by single spaces. *)
Lemma wrap_loses_spacing :
  Forall (fun w => len w <= 5) (split "a  b")
  /\ join " " (wrap_text_justified "a  b" 5 false) <> "a  b".
Proof. split; [repeat constructor; vm_compute; discriminate | discriminate]. Qed.

End TextLayoutFacts.

(** ** ReportExtractor: [format_table] *)

Module ExtractorFacts.
Import Py PyFacts Extractor.

(** C2, as amended: a table dict that is not empty and has no columns or no
    rows renders the placeholder line once, as its last line, after the two
    lines of the title header when the title ('Table' when missing) is not
    the empty string; the empty dict renders no line. *)
Theorem format_table_unpopulated t width :
  let title := default "Table" (tbl_title t) in
  let header := if truthy title then ["TABLE: " +:+ title; ""] else [] in
  default [] (tbl_columns t) = [] \/ default [] (tbl_rows t) = [] ->
  format_table (Some t) width
  = (if table_truthy t then header ++ [placeholder] else [])
  /\ placeholder ∉ header.
Proof.
  intros title header Hmissing. split.
  - unfold format_table. destruct (table_truthy t); [|done]. cbn [negb].
    fold title. fold header.
    destruct Hmissing as [-> | ->]; [done|].
    by destruct (default [] (tbl_columns t)).
  - subst header. destruct (truthy title); [|by apply not_elem_of_nil].
    intros [H | H]%elem_of_cons; [discriminate H|].
    apply list_elem_of_singleton in H. discriminate H.
Qed.

Lemma format_table_unpopulated_witness :
  format_table (Some (Table (Some "") (Some []) None None [])) 94
  = [placeholder]
  /\ placeholder ∉ ([] : list string).
Proof.
  apply (format_table_unpopulated (Table (Some "") (Some []) None None []) 94).
  by left.
Defined.

(** C2 as stated fails: with a title (or none, which reads 'Table') the
    header lines come before the placeholder. *)
Lemma format_table_header_before_placeholder :
  default [] (tbl_columns (Table None (Some []) (Some []) None [])) = []
  /\ format_table (Some (Table None (Some []) (Some []) None [])) 94
     = ["TABLE: Table"; ""; "(Table data structure not fully populated)"]
  /\ format_table (Some (Table None (Some []) (Some []) None [])) 94
     <> [placeholder].
Proof. split; [done|]. split; [reflexivity | discriminate]. Qed.

End ExtractorFacts.

(** ** DoiResolver: [fetch_doi_from_semantic_scholar] *)

Module ResolverFacts.
Import Py Resolver.

Lemma bind_run {A B} (m : M A) (k : A -> M B) w :
  (m ≫= k) w
  = match m w with
    | (Some a, w') => k a w'
    | (None, w') => (None, w')
    end.
Proof. reflexivity. Qed.

Lemma ret_run {A} (a : A) w : (mret a : M A) w = (Some a, w).
Proof. reflexivity. Qed.

Ltac step_bind :=
  match goal with
  | |- context [@mbind M M_bind ?A ?B ?k ?m ?w] =>
      rewrite (@bind_run A B m k w)
  end.

Lemma world_eta w : World (doi_cache w) (sent w) (trace w) = w.
Proof. by destruct w. Qed.

(** A lookup that is answered 429 from attempt [a] up to the last attempt
    [n - 1]: it returns [None], and its events are [backoff_events]. *)
Lemma fetch_loop_rate_limited service cid n : forall k a w,
  n = Z.of_nat (a + k) ->
  (forall j, (j < k)%nat -> service (sent w + j)%nat = HttpError 429) ->
  fetch_loop service cid n (map Z.of_nat (seq a k)) w
  = (Some None,
     World (doi_cache w) (sent w + k)
           (trace w ++ backoff_events cid (map Z.of_nat (seq a k)))).
Proof.
  induction k as [|k IH]; intros a w Hn H429.
  - cbn. by rewrite Nat.add_0_r, app_nil_r, world_eta.
  - cbn [seq map fetch_loop]. step_bind. unfold http_get.
    pose proof (H429 0%nat ltac:(lia)) as H0.
    rewrite Nat.add_0_r in H0. rewrite H0.
    cbn [Z.eqb Pos.eqb]. destruct k as [|k].
    + destruct (Z.ltb_spec (Z.of_nat a) (n - 1)) as [Hlt|_]; [lia|].
      cbn. by rewrite Nat.add_1_r.
    + destruct (Z.ltb_spec (Z.of_nat a) (n - 1)) as [_|Hge]; [|lia].
      step_bind. cbn [sleep emit].
      rewrite (IH (S a)); cbn [sent doi_cache trace].
      * f_equal. f_equal; [lia|]. by rewrite <- !app_assoc.
      * lia.
      * intros j Hj. rewrite <- H429 with (j := S j) by lia. f_equal. lia.
Qed.

(** C1, as amended: a lookup answered 429 at each of its 5 attempts sends 5
    requests, sleeps 3, 6, 12 and 24 seconds between them, nothing after the
    fifth, and returns no DOI. *)
Theorem rate_limited_backoff service cid w :
  (forall j, (j < 5)%nat -> service (sent w + j)%nat = HttpError 429) ->
  exists evs,
    fetch_doi_from_semantic_scholar service cid 5 w
    = (Some None, World (doi_cache w) (sent w + 5) (trace w ++ evs))
    /\ sleeps evs = [3; 6; 12; 24]
    /\ requests evs = [cid; cid; cid; cid; cid]
    /\ last evs = Some (Request cid).
Proof.
  intros H429. eexists. split.
  - unfold fetch_doi_from_semantic_scholar.
    apply (fetch_loop_rate_limited service cid 5 5 0 w); [done|done].
  - done.
Qed.

Lemma rate_limited_backoff_witness :
  exists evs,
    fetch_doi_from_semantic_scholar (fun _ => HttpError 429) "7" 5 (World ∅ 0 [])
    = (Some None, World ∅ 5 evs)
    /\ sleeps evs = [3; 6; 12; 24]
    /\ requests evs = ["7"; "7"; "7"; "7"; "7"]
    /\ last evs = Some (Request "7").
Proof.
  apply (rate_limited_backoff (fun _ => HttpError 429) "7" (World ∅ 0 [])).
  reflexivity.
Defined.

(** C1 as stated fails: after the fifth 429 the code returns at once, so
    48 seconds are never slept. *)
Lemma rate_limited_no_fifth_sleep :
  fst (fetch_doi_from_semantic_scholar (fun _ => HttpError 429) "7" 5
         (World ∅ 0 [])) = Some None
  /\ sleeps (trace (snd (fetch_doi_from_semantic_scholar
                           (fun _ => HttpError 429) "7" 5 (World ∅ 0 []))))
     = [3; 6; 12; 24]
  /\ sleeps (trace (snd (fetch_doi_from_semantic_scholar
                           (fun _ => HttpError 429) "7" 5 (World ∅ 0 []))))
     <> [3; 6; 12; 24; 48].
Proof. split; [reflexivity|]. split; [reflexivity | discriminate]. Qed.

End ResolverFacts.

(** ** ReportRenderer *)

Module RendererFacts.
Import Py PyFacts Renderer.

(** *** The two columns *)

(** C8, as amended: the written line [i] is the [i]-th left line padded with
    spaces up to 95 characters, and left whole when it is longer, then
    [" | "], then the [i]-th right line as it is; a column that has run out
    gives the empty string, and there are as many written lines as the
    longer column has. *)
Theorem write_columns_lines (left_content right_content : list string) :
  let max_lines := Nat.max (length left_content) (length right_content) in
  length (write_columns left_content right_content) = max_lines
  /\ (forall i : nat,
       write_columns left_content right_content !! i
       = if decide (i < max_lines)%nat
         then Some (ljust (default "" (left_content !! i)) 95
                    +:+ " | " +:+ default "" (right_content !! i) +:+ newline)
         else None)
  /\ (forall s, ljust s 95 = s +:+ times " " (95 - len s)
                /\ len (ljust s 95) = Z.max (len s) 95).
Proof.
  intros max_lines. unfold write_columns. fold max_lines.
  split; [by rewrite length_map, length_seq|].
  split.
  - intros i. rewrite list_lookup_fmap. case_decide as Hi.
    + by rewrite lookup_seq_lt.
    + by rewrite lookup_seq_ge by lia.
  - intros s. split; [done | apply len_ljust].
Qed.

(** C8 as stated fails: a left line longer than 95 characters is written
    whole, so no cell of exactly 95 characters stands before the
    delimiter. *)
Lemma write_columns_keeps_long_line :
  ~ exists cell : string,
      len cell = 95
      /\ write_columns [times "x" 96] ["r"] !! 0%nat
         = Some (cell +:+ " | " +:+ "r" +:+ newline).
Proof.
  intros (cell & Hlen & H).
  apply (f_equal (fmap len)) in H. cbn [fmap option_fmap option_map] in H.
  rewrite !len_app, Hlen in H. vm_compute in H. discriminate H.
Qed.

(** *** The reference list *)



Lemma insert_item_perm x l : insert_item x l ≡ₚ x :: l.
Proof.
  induction l as [|y l IH]; [done|]. cbn [insert_item].
  destruct (item_lt y x); [|done].
  rewrite IH. apply perm_swap.
Qed.


Lemma sorted_perm l : sorted l ≡ₚ l.
Proof.
  induction l as [|x l IH]; [done|]. cbn [sorted fold_right].
  fold (sorted l). by rewrite insert_item_perm, IH.
Qed.


(** The loop that fills [all_references] keeps the keys distinct, and adds
    for each new name the DOI of the first citation shown under it. *)
Lemma fold_add_reference cache cs : forall acc,
  NoDup acc.*1 ->
  NoDup (fold_left (add_reference cache) cs acc).*1
  /\ forall name doi,
       (name, doi) ∈ fold_left (add_reference cache) cs acc
       <-> (name, doi) ∈ acc
           \/ ((name ∉ acc.*1) /\ first_doi cache name cs = Some doi).
Proof.
  induction cs as [|c cs IH]; intros acc Hnd.
  - split; [done|]. intros name doi. cbn. naive_solver.
  - cbn [fold_left first_doi]. unfold add_reference at 2 4.
    destruct (decide (display c ∈ acc.*1)) as [Hin|Hnin].
    + destruct (IH acc Hnd) as [Hnd' Hmem]. split; [done|].
      intros name doi. rewrite Hmem.
      destruct (decide (display c = name)) as [<-|]; naive_solver.
    + destruct (IH (acc ++ [(display c, cache_get cache (corpus_id c))]))
        as [Hnd' Hmem].
      { rewrite fmap_app. apply NoDup_app. split; [done|].
        split; [|apply NoDup_singleton].
        intros x Hx Hx'. apply list_elem_of_singleton in Hx'. by subst. }
      split; [done|]. intros name doi. rewrite Hmem.
      rewrite elem_of_app, list_elem_of_singleton, fmap_app, not_elem_of_app.
      cbn [fmap list_fmap fst]. rewrite list_elem_of_singleton.
      destruct (decide (display c = name)) as [<-|]; naive_solver.
Qed.

Lemma build_references_spec cache sections :
  NoDup (build_references cache sections).*1
  /\ forall name doi,
       (name, doi) ∈ build_references cache sections
       <-> first_doi cache name (citations_of sections) = Some doi.
Proof.
  destruct (fold_add_reference cache (citations_of sections) [])
    as [Hnd Hmem]; [constructor|].
  split; [done|]. intros name doi. unfold build_references.
  rewrite Hmem. split; [by intros [?%elem_of_nil|[_ ?]]|].
  intros H. right. split; [apply not_elem_of_nil | done].
Qed.

(** The reference list reads the cache at the corpus ids of the citations
    and nowhere else. *)
Lemma build_references_agree cache1 cache2 sections :
  (forall c, c ∈ citations_of sections ->
     cache1 !! corpus_id c = cache2 !! corpus_id c) ->
  build_references cache1 sections = build_references cache2 sections.
Proof.
  unfold build_references. generalize (@nil (string * option string)).
  induction (citations_of sections) as [|c cs IH]; intros acc Hagree; [done|].
  cbn [fold_left].
  assert (add_reference cache1 acc c = add_reference cache2 acc c) as ->.
  { unfold add_reference, cache_get.
    by rewrite (Hagree c) by apply list_elem_of_here. }
  apply IH. intros c' Hc'. apply Hagree. by apply list_elem_of_further.
Qed.

Lemma right_content_agree cache1 cache2 sections :
  (forall c, c ∈ citations_of sections ->
     cache1 !! corpus_id c = cache2 !! corpus_id c) ->
  right_content cache1 sections = right_content cache2 sections.
Proof.
  intros Hagree. unfold right_content, reference_lines.
  by rewrite (build_references_agree cache1 cache2).
Qed.

(** Two sections citing ids 1 and 2, the second without a DOI. *)
Example reference_lines_two_sections :
  reference_lines {["1" := Some "10.1/x"; "2" := None]}
    [MkSection "One" "text" None [Citation "2" "(B, 2021)" (JObj [])];
     MkSection "Two" "text" None [Citation "1" "(A, 2020)" (JObj []);
                                  Citation "2" "(B, 2021)" (JObj [])]]
  = ["(A, 2020) -> https://doi.org/10.1/x"; "(B, 2021) -> NO DOI FOUND"].
Proof. by vm_compute. Qed.




End RendererFacts.

(** ** The run *)

Module MainFacts.
Import Py Extractor Resolver ResolverFacts Legacy Renderer Main.

Lemma elem_of_fold_ids (cs : list citation) : forall (ids : gset string) cid,
  cid ∈ fold_left (fun ids c => ids ∪ {[corpus_id c]}) cs ids
  <-> cid ∈ ids \/ exists c, c ∈ cs /\ corpus_id c = cid.
Proof.
  induction cs as [|c cs IH]; intros ids cid; cbn [fold_left].
  - split; [by left|]. intros [H | (c & Hc & _)]; [done|].
    by apply elem_of_nil in Hc.
  - rewrite IH, elem_of_union, elem_of_singleton. split.
    + intros [[H | ->] | (c' & Hc' & Heq)]; [by left | |].
      * right. exists c. split; [apply list_elem_of_here | done].
      * right. exists c'. split; [by apply list_elem_of_further | done].
    + intros [H | (c' & Hc' & Heq)]; [by left; left|].
      apply elem_of_cons in Hc' as [-> | Hc']; [by left; right|].
      right. by exists c'.
Qed.

(** [unique_corpus_ids] holds the corpus ids of the citations, no other. *)
Lemma elem_of_unique_corpus_ids sections cid :
  cid ∈ unique_corpus_ids sections
  <-> exists c, c ∈ citations_of sections /\ corpus_id c = cid.
Proof.
  unfold unique_corpus_ids. rewrite elem_of_fold_ids.
  split; [|by right]. by intros [?%not_elem_of_empty|].
Qed.

(** *** The legacy-import merge *)

Lemma import_citation_run m n c w :
  import_citation m n c w
  = match m !! display c, doi_cache w !! corpus_id c with
    | Some doi, None =>
        (Some (n + 1),
         World (<[corpus_id c := Some doi]> (doi_cache w)) (sent w) (trace w))
    | _, _ => (Some n, w)
    end.
Proof.
  unfold import_citation. step_bind. cbn [cache_read].
  destruct (m !! display c), (doi_cache w !! corpus_id c); reflexivity.
Qed.

(** The loop of the merge only adds entries: it keeps every entry there
    was, and an entry it adds is for a citation whose display name is a key
    of the legacy file. *)
Lemma import_loop_run m cs : forall n w,
  exists n' cache',
    import_loop m cs n w = (Some n', World cache' (sent w) (trace w))
    /\ (forall cid, is_Some (doi_cache w !! cid) ->
                    cache' !! cid = doi_cache w !! cid)
    /\ (forall cid, is_Some (cache' !! cid) ->
          is_Some (doi_cache w !! cid)
          \/ exists c, c ∈ cs /\ corpus_id c = cid /\ is_Some (m !! display c)).
Proof.
  induction cs as [|c cs IH]; intros n w.
  - exists n, (doi_cache w). cbn. rewrite world_eta. by eauto.
  - cbn [import_loop]. step_bind. rewrite import_citation_run.
    destruct (m !! display c) as [doi|] eqn:Hm;
      [destruct (doi_cache w !! corpus_id c) as [old|] eqn:Hc|].
    + destruct (IH n w) as (n' & cache' & Hrun & Hkeep & Horigin).
      exists n', cache'. split; [done|]. split; [done|].
      intros cid Hcid. destruct (Horigin cid Hcid) as [|(c' & ? & ? & ?)];
        [by left|]. right. exists c'. split; [by apply list_elem_of_further|done].
    + destruct (IH (n + 1)
                  (World (<[corpus_id c := Some doi]> (doi_cache w))
                         (sent w) (trace w)))
        as (n' & cache' & Hrun & Hkeep & Horigin).
      cbn [doi_cache sent trace] in *.
      exists n', cache'. split; [done|]. split.
      * intros cid Hcid. rewrite Hkeep.
        -- apply lookup_insert_ne. intros <-. rewrite Hc in Hcid.
           by destruct Hcid.
        -- rewrite lookup_insert_ne; [done|]. intros <-. rewrite Hc in Hcid.
           by destruct Hcid.
      * intros cid Hcid. destruct (Horigin cid Hcid) as [Hin|(c' & ? & ? & ?)].
        -- destruct (decide (corpus_id c = cid)) as [<-|Hne].
           ++ right. exists c. rewrite Hm.
              split; [apply list_elem_of_here | by eauto].
           ++ left. by rewrite lookup_insert_ne in Hin.
        -- right. exists c'. split; [by apply list_elem_of_further|done].
    + destruct (IH n w) as (n' & cache' & Hrun & Hkeep & Horigin).
      exists n', cache'. split; [done|]. split; [done|].
      intros cid Hcid. destruct (Horigin cid Hcid) as [|(c' & ? & ? & ?)];
        [by left|]. right. exists c'. split; [by apply list_elem_of_further|done].
Qed.

(** The merge sends nothing and sleeps never; it saves the cache at most
    once. *)
Lemma import_legacy_run m sections w :
  exists cache' evs,
    import_legacy m sections w
    = (Some tt, World cache' (sent w) (trace w ++ evs))
    /\ (evs = [] \/ evs = [SaveCache cache'])
    /\ (forall cid, is_Some (doi_cache w !! cid) ->
                    cache' !! cid = doi_cache w !! cid)
    /\ (forall cid, is_Some (cache' !! cid) ->
          is_Some (doi_cache w !! cid)
          \/ exists c, c ∈ citations_of sections /\ corpus_id c = cid
                       /\ is_Some (m !! display c)).
Proof.
  unfold import_legacy. destruct (decide (m = ∅)) as [->|Hne].
  - exists (doi_cache w), []. rewrite app_nil_r, world_eta.
    split; [done|]. split; [by left|]. split; [done|]. by left.
  - step_bind.
    destruct (import_loop_run m (citations_of sections) 0 w)
      as (n' & cache' & -> & Hkeep & Horigin).
    exists cache'. destruct (0 <? n').
    + exists [SaveCache cache']. split; [done|]. split; [by right|done].
    + exists []. rewrite app_nil_r. split; [done|]. split; [by left|done].
Qed.

(** The merge looks the legacy file up at the display names of the
    citations only: two files that agree there give the same merge. *)
Lemma import_loop_agree m1 m2 cs : forall n w,
  (forall c, c ∈ cs -> m1 !! display c = m2 !! display c) ->
  import_loop m1 cs n w = import_loop m2 cs n w.
Proof.
  induction cs as [|c cs IH]; intros n w Hagree; [done|].
  cbn [import_loop]. do 2 step_bind. rewrite !import_citation_run.
  rewrite (Hagree c) by apply list_elem_of_here.
  destruct (m2 !! display c), (doi_cache w !! corpus_id c);
    apply IH; intros c' Hc'; apply Hagree; by apply list_elem_of_further.
Qed.

Lemma import_loop_no_match m cs : forall n w,
  (forall c, c ∈ cs -> m !! display c = None) ->
  import_loop m cs n w = (Some n, w).
Proof.
  induction cs as [|c cs IH]; intros n w Hnone; [done|].
  cbn [import_loop]. step_bind. rewrite import_citation_run.
  rewrite (Hnone c) by apply list_elem_of_here.
  apply IH. intros c' Hc'. apply Hnone. by apply list_elem_of_further.
Qed.

Lemma import_legacy_no_match m sections w :
  (forall c, c ∈ citations_of sections -> m !! display c = None) ->
  import_legacy m sections w = (Some tt, w).
Proof.
  intros Hnone. unfold import_legacy. destruct (decide (m = ∅)); [done|].
  step_bind. by rewrite import_loop_no_match.
Qed.

Lemma import_legacy_agree m1 m2 sections w :
  (forall c, c ∈ citations_of sections -> m1 !! display c = m2 !! display c) ->
  import_legacy m1 sections w = import_legacy m2 sections w.
Proof.
  intros Hagree.
  destruct (decide (m1 = ∅)) as [->|Hne1].
  - symmetry. rewrite import_legacy_no_match; [done|].
    intros c Hc. by rewrite <- Hagree.
  - destruct (decide (m2 = ∅)) as [->|Hne2].
    + rewrite import_legacy_no_match; [done|].
      intros c Hc. by rewrite Hagree.
    + unfold import_legacy. rewrite !decide_False by done.
      do 2 step_bind. by rewrite (import_loop_agree m1 m2).
Qed.

(** C7: the legacy-import merge leaves every entry of the cache as it was:
    a corpus id that is a key of the cache before the merge has the same
    value after it, whatever the legacy file says. *)
Theorem import_legacy_keeps_entries m sections w cid :
  is_Some (doi_cache w !! cid) ->
  doi_cache (import_legacy m sections w).2 !! cid = doi_cache w !! cid.
Proof.
  intros Hcid.
  destruct (import_legacy_run m sections w) as (cache' & evs & -> & _ & Hkeep & _).
  by apply Hkeep.
Qed.

Lemma import_legacy_keeps_entries_witness :
  doi_cache
    (import_legacy {["(X)" := "10.1/b"]}
       [MkSection "Findings" "text" None [Citation "5" "(X)" (JObj [])]]
       (World {["5" := Some "10.1/a"]} 0 [])).2 !! "5"
  = Some (Some "10.1/a").
Proof.
  refine (eq_trans
            (import_legacy_keeps_entries {["(X)" := "10.1/b"]}
               [MkSection "Findings" "text" None [Citation "5" "(X)" (JObj [])]]
               (World {["5" := Some "10.1/a"]} 0 []) "5" _) _).
  - vm_compute. by eexists.
  - by vm_compute.
Defined.

(** The same with the legacy file read by [parse_citation_text_file]: the
    key it stores is the text between the parentheses; the cache is left as
    it was for a citation shown as [(X)] and for one shown as [X]. *)
Example import_legacy_parsed_file :
  parse_citation_text_file (Some ["(X) -> 10.1/b"])
  = {["X" := "10.1/b"]}
  /\ doi_cache
       (import_legacy (parse_citation_text_file (Some ["(X) -> 10.1/b"]))
          [MkSection "Findings" "text" None [Citation "5" "(X)" (JObj [])]]
          (World {["5" := Some "10.1/a"]} 0 [])).2
     = {["5" := Some "10.1/a"]}
  /\ doi_cache
       (import_legacy (parse_citation_text_file (Some ["(X) -> 10.1/b"]))
          [MkSection "Findings" "text" None [Citation "5" "X" (JObj [])]]
          (World {["5" := Some "10.1/a"]} 0 [])).2
     = {["5" := Some "10.1/a"]}.
Proof. repeat split; by vm_compute. Qed.

(** C10: an entry of the legacy file whose label is the display name of no
    citation of the report has no effect on the merge: the merge with the
    entry is the merge without it, and any key the merge adds is the corpus
    id of a citation whose display name is a label of the legacy file. *)
Theorem import_legacy_ignores_unmatched m sections w label doi :
  (forall c, c ∈ citations_of sections -> display c <> label) ->
  import_legacy (<[label := doi]> m) sections w = import_legacy m sections w
  /\ import_legacy m sections w = import_legacy (delete label m) sections w
  /\ (forall cid,
        is_Some (doi_cache (import_legacy (<[label := doi]> m) sections w).2 !! cid) ->
        is_Some (doi_cache w !! cid)
        \/ exists c, c ∈ citations_of sections /\ corpus_id c = cid
                     /\ is_Some (m !! display c)).
Proof.
  intros Hlabel.
  assert (H1 : import_legacy (<[label := doi]> m) sections w
               = import_legacy m sections w).
  { apply import_legacy_agree. intros c Hc.
    apply lookup_insert_ne. intros ->. by apply (Hlabel c). }
  split; [done|]. split.
  - apply import_legacy_agree. intros c Hc. symmetry.
    apply lookup_delete_ne. intros ->. by apply (Hlabel c).
  - rewrite H1.
    destruct (import_legacy_run m sections w) as (cache' & evs & -> & _ & _ & Horigin).
    exact Horigin.
Qed.

Lemma import_legacy_ignores_unmatched_witness :
  import_legacy (<["(Z, 1999)" := "10.1/z"]> {["(X)" := "10.1/b"]})
    [MkSection "Findings" "text" None [Citation "5" "(X)" (JObj [])]]
    (World ∅ 0 [])
  = import_legacy {["(X)" := "10.1/b"]}
      [MkSection "Findings" "text" None [Citation "5" "(X)" (JObj [])]]
      (World ∅ 0 []).
Proof.
  apply (import_legacy_ignores_unmatched {["(X)" := "10.1/b"]}
           [MkSection "Findings" "text" None [Citation "5" "(X)" (JObj [])]]
           (World ∅ 0 []) "(Z, 1999)" "10.1/z").
  intros c Hc. apply list_elem_of_singleton in Hc. by subst c.
Defined.

(** *** Fetching *)

Lemma sleeps_app a b : sleeps (a ++ b) = sleeps a ++ sleeps b.
Proof. apply omap_app. Qed.

Lemma requests_app a b : requests (a ++ b) = requests a ++ requests b.
Proof. apply omap_app. Qed.

Lemma fetch_calls_app a b : fetch_calls (a ++ b) = fetch_calls a ++ fetch_calls b.
Proof. apply omap_app. Qed.

(** One lookup leaves the cache alone and sends one request for each
    attempt it makes, all for its own corpus id. *)
Lemma fetch_loop_run service cid n attempts : forall w,
  exists r k evs,
    fetch_loop service cid n attempts w
    = (r, World (doi_cache w) (sent w + k) (trace w ++ evs))
    /\ requests evs = replicate k cid
    /\ (k <= length attempts)%nat
    /\ fetch_calls evs = [].
Proof.
  induction attempts as [|attempt rest IH]; intros w.
  - exists (Some None), 0%nat, []. cbn.
    by rewrite Nat.add_0_r, app_nil_r, world_eta.
  - cbn [fetch_loop]. step_bind. unfold http_get.
    assert (Hstop : forall r : option (option string),
      exists r' k evs,
        (r, World (doi_cache w) (S (sent w)) (trace w ++ [Request cid]))
        = (r', World (doi_cache w) (sent w + k) (trace w ++ evs))
        /\ requests evs = replicate k cid
        /\ (k <= length (attempt :: rest))%nat
        /\ fetch_calls evs = []).
    { intros r. exists r, 1%nat, [Request cid].
      rewrite Nat.add_1_r. cbn. split; [done|]. split; [done|]. split; [lia|done]. }
    destruct (service (sent w)) as [doi|status_code| |];
      [apply Hstop | | apply Hstop | apply Hstop].
    destruct (status_code =? 429); [|apply Hstop].
    destruct (attempt <? n - 1); [|apply Hstop].
    step_bind. cbn [sleep emit doi_cache sent trace].
    destruct (IH (World (doi_cache w) (S (sent w))
                        ((trace w ++ [Request cid])
                         ++ [Sleep (2 ^ attempt * 3)])))
      as (r & k & evs & -> & Hreq & Hk & Hcalls).
    cbn [doi_cache sent trace].
    exists r, (S k), (Request cid :: Sleep (2 ^ attempt * 3) :: evs).
    split; [|split; [|split]].
    + f_equal. f_equal; [lia|]. by rewrite <- !app_assoc.
    + cbn. by rewrite <- Hreq.
    + cbn [length]. lia.
    + done.
Qed.

Lemma fetch_run service cid w :
  exists r k evs,
    fetch_doi_from_semantic_scholar service cid 5 w
    = (r, World (doi_cache w) (sent w + k) (trace w ++ evs))
    /\ requests evs = replicate k cid
    /\ (k <= 5)%nat
    /\ fetch_calls evs = [].
Proof. apply (fetch_loop_run service cid 5 (range 5) w). Qed.

Lemma count_replicate_eq (cid : string) k :
  length (filter (fun x => x = cid) (replicate k cid)) = k.
Proof.
  induction k as [|k IH]; [done|].
  cbn [replicate]. rewrite filter_cons_True by done. cbn. by rewrite IH.
Qed.

Lemma count_not_elem (cid : string) l :
  cid ∉ l -> length (filter (fun x => x = cid) l) = 0%nat.
Proof.
  induction l as [|x l IH]; intros Hnin; [done|].
  apply not_elem_of_cons in Hnin as [Hne Hnin].
  rewrite filter_cons_False by done. by apply IH.
Qed.

(** The loop over [to_fetch]: the calls of the lookup are for a prefix of
    [to_fetch] (all of it unless an exception stops the loop), requests go
    out for called ids only, every called id that came back is set in the
    cache, and no other key is touched. *)
Lemma fetch_all_run service total to_fetch : forall i fetch_count w,
  exists r cache' k evs,
    fetch_all service total i to_fetch fetch_count w
    = (r, World cache' (sent w + k) (trace w ++ evs))
    /\ fetch_calls evs `prefix_of` to_fetch
    /\ (is_Some r ->
        fetch_calls evs = to_fetch
        /\ forall cid, cid ∈ to_fetch -> is_Some (cache' !! cid))
    /\ (forall cid, cid ∉ fetch_calls evs -> cache' !! cid = doi_cache w !! cid)
    /\ (forall cid, is_Some (doi_cache w !! cid) -> is_Some (cache' !! cid))
    /\ (forall cid, cid ∈ requests evs -> cid ∈ fetch_calls evs)
    /\ (NoDup to_fetch ->
        forall cid, (length (filter (fun x => x = cid) (requests evs)) <= 5)%nat).
Proof.
  induction to_fetch as [|cid0 rest IH]; intros i fetch_count w.
  - exists (Some fetch_count), (doi_cache w), 0%nat, []. cbn.
    rewrite Nat.add_0_r, app_nil_r, world_eta.
    split; [done|]. split; [done|].
    split; [intros _; split; [done | by intros ? ?%elem_of_nil]|].
    split; [done|]. split; [done|]. split; [done|].
    intros _ cid. lia.
  - cbn [fetch_all]. step_bind. cbn [emit]. step_bind.
    destruct (fetch_run service cid0
                (World (doi_cache w) (sent w) (trace w ++ [FetchCall cid0])))
      as (r1 & k1 & evs1 & -> & Hreq1 & Hk1 & Hcalls1).
    cbn [doi_cache sent trace].
    destruct r1 as [doi|].
    + step_bind. cbn [cache_set doi_cache sent trace]. step_bind.
      set (pace := if i <? total then [Sleep 2] else []).
      destruct (IH (i + 1) (fetch_count + 1)
                   (World (<[cid0 := doi]> (doi_cache w)) (sent w + k1)
                          (((trace w ++ [FetchCall cid0]) ++ evs1) ++ pace)))
        as (r & cache' & k & evs & Hrun & Hpre & Hall & Hframe & Hmono
            & Hsub & Hcount).
      cbn [doi_cache sent trace] in *.
      exists r, cache', (k1 + k)%nat, (FetchCall cid0 :: evs1 ++ pace ++ evs).
      assert (Hpace_calls : fetch_calls pace = []) by (subst pace; by destruct (i <? total)).
      assert (Hpace_req : requests pace = []) by (subst pace; by destruct (i <? total)).
      assert (Hcalls : fetch_calls (FetchCall cid0 :: evs1 ++ pace ++ evs)
                       = cid0 :: fetch_calls evs).
      { change (FetchCall cid0 :: evs1 ++ pace ++ evs)
          with ([FetchCall cid0] ++ evs1 ++ pace ++ evs).
        rewrite !fetch_calls_app, Hcalls1, Hpace_calls. done. }
      assert (Hreqs : requests (FetchCall cid0 :: evs1 ++ pace ++ evs)
                      = replicate k1 cid0 ++ requests evs).
      { change (FetchCall cid0 :: evs1 ++ pace ++ evs)
          with ([FetchCall cid0] ++ evs1 ++ pace ++ evs).
        rewrite !requests_app, Hreq1, Hpace_req. done. }
      rewrite Hcalls, Hreqs.
      split; [|split; [|split; [|split; [|split; [|split]]]]].
      * assert (Hw : (if i <? total then sleep 2 else mret tt)
                       (World (<[cid0 := doi]> (doi_cache w)) (sent w + k1)
                              ((trace w ++ [FetchCall cid0]) ++ evs1))
                     = (Some tt,
                        World (<[cid0 := doi]> (doi_cache w)) (sent w + k1)
                              (((trace w ++ [FetchCall cid0]) ++ evs1) ++ pace))).
        { subst pace. destruct (i <? total); [done|]. by rewrite app_nil_r. }
        rewrite Hw, Hrun. f_equal. f_equal; [lia|].
        rewrite <- !app_assoc. done.
      * by apply prefix_cons.
      * intros Hr. destruct (Hall Hr) as [Heq Hin]. split; [by rewrite Heq|].
        intros cid [->|Hcid]%elem_of_cons; [|by apply Hin].
        apply Hmono. rewrite lookup_insert_eq. by eexists.
      * intros cid [Hne Hnin]%not_elem_of_cons.
        rewrite Hframe by done. by rewrite lookup_insert_ne.
      * intros cid Hcid. apply Hmono.
        destruct (decide (cid0 = cid)) as [->|Hne];
          [rewrite lookup_insert_eq; by eexists | by rewrite lookup_insert_ne].
      * intros cid [Hcid|Hcid]%elem_of_app.
        -- apply elem_of_replicate in Hcid as [-> _]. apply list_elem_of_here.
        -- apply list_elem_of_further. by apply Hsub.
      * intros [Hnin Hnd]%NoDup_cons cid.
        rewrite filter_app, length_app.
        destruct (decide (cid = cid0)) as [->|Hne].
        -- rewrite count_replicate_eq, count_not_elem; [lia|].
           intros Hin. apply Hsub in Hin. apply Hnin.
           by eapply elem_of_prefix.
        -- rewrite (count_not_elem cid (replicate k1 cid0)).
           ++ by apply Hcount.
           ++ by intros [? _]%elem_of_replicate.
    + exists None, (doi_cache w), k1, (FetchCall cid0 :: evs1).
      assert (Hcalls : fetch_calls (FetchCall cid0 :: evs1) = [cid0]).
      { change (FetchCall cid0 :: evs1) with ([FetchCall cid0] ++ evs1).
        by rewrite fetch_calls_app, Hcalls1. }
      assert (Hreqs : requests (FetchCall cid0 :: evs1) = replicate k1 cid0).
      { change (FetchCall cid0 :: evs1) with ([FetchCall cid0] ++ evs1).
        by rewrite requests_app, Hreq1. }
      rewrite Hcalls, Hreqs.
      split; [by rewrite <- app_assoc|]. split; [by apply prefix_cons, prefix_nil|].
      split; [by intros [? ?]|]. split; [done|]. split; [done|].
      split.
      * intros cid [-> _]%elem_of_replicate. apply list_elem_of_here.
      * intros _ cid. destruct (decide (cid = cid0)) as [->|Hne].
        -- rewrite count_replicate_eq. lia.
        -- rewrite count_not_elem; [lia|]. by intros [? _]%elem_of_replicate.
Qed.

(** *** Resolution as a whole *)

Lemma NoDup_prefix (l1 l2 : list string) :
  l1 `prefix_of` l2 -> NoDup l2 -> NoDup l1.
Proof. intros [k ->] Hnd. by apply NoDup_app in Hnd as [? _]. Qed.

Lemma select_to_fetch_run ids w :
  select_to_fetch ids w
  = (Some (filter (fun cid => doi_cache w !! cid = None) ids), w).
Proof. reflexivity. Qed.

(** [resolve_all] from the cache after the merge, [cache1], to the cache
    that rendering reads, [cache2]. *)
Lemma resolve_all_run service m sections w :
  exists r cache2 k evs,
    resolve_all service m sections w
    = (r, World cache2 (sent w + k) (trace w ++ evs))
    /\ NoDup (fetch_calls evs)
    /\ (forall cid, cid ∈ fetch_calls evs ->
          doi_cache (import_legacy m sections w).2 !! cid = None
          /\ doi_cache w !! cid = None
          /\ cid ∈ unique_corpus_ids sections)
    /\ (forall cid, cid ∈ requests evs -> cid ∈ fetch_calls evs)
    /\ (forall cid, (length (filter (fun x => x = cid) (requests evs)) <= 5)%nat)
    /\ (is_Some r ->
        forall c, c ∈ citations_of sections -> is_Some (cache2 !! corpus_id c))
    /\ (forall cid, is_Some (doi_cache w !! cid) ->
                    cache2 !! cid = doi_cache w !! cid).
Proof.
  unfold resolve_all. step_bind.
  destruct (import_legacy_run m sections w)
    as (cache1 & evs0 & -> & Hevs0 & Hkeep & _).
  cbn [snd doi_cache]. step_bind. rewrite select_to_fetch_run.
  cbn [doi_cache].
  set (to_fetch := filter (fun cid => cache1 !! cid = None)
                          (set_order (unique_corpus_ids sections))).
  assert (Hnd : NoDup to_fetch).
  { apply NoDup_filter. unfold set_order. apply NoDup_elements. }
  assert (Hcalls0 : fetch_calls evs0 = [])
    by (destruct Hevs0 as [-> | ->]; done).
  assert (Hreq0 : requests evs0 = [])
    by (destruct Hevs0 as [-> | ->]; done).
  step_bind.
  destruct (fetch_all_run service (Z.of_nat (length to_fetch)) to_fetch 1 0
              (World cache1 (sent w) (trace w ++ evs0)))
    as (r & cache2 & k & evs & -> & Hpre & Hall & Hframe & Hmono
        & Hsub & Hcount).
  cbn [doi_cache sent trace] in *.
  assert (Hfacts : forall tail : list event,
    fetch_calls tail = [] -> requests tail = [] ->
    NoDup (fetch_calls (evs0 ++ evs ++ tail))
    /\ (forall cid, cid ∈ fetch_calls (evs0 ++ evs ++ tail) ->
          cache1 !! cid = None /\ doi_cache w !! cid = None
          /\ cid ∈ unique_corpus_ids sections)
    /\ (forall cid, cid ∈ requests (evs0 ++ evs ++ tail) ->
                    cid ∈ fetch_calls (evs0 ++ evs ++ tail))
    /\ (forall cid, (length (filter (fun x => x = cid)
                               (requests (evs0 ++ evs ++ tail))) <= 5)%nat)
    /\ (forall cid, is_Some (doi_cache w !! cid) ->
                    cache2 !! cid = doi_cache w !! cid)).
  { intros tail Htc Htr.
    rewrite !fetch_calls_app, !requests_app, Hcalls0, Hreq0, Htc, Htr.
    rewrite !app_nil_l, !app_nil_r.
    assert (Hin : forall cid, cid ∈ fetch_calls evs ->
              cache1 !! cid = None /\ doi_cache w !! cid = None
              /\ cid ∈ unique_corpus_ids sections).
    { intros cid Hcid. eapply elem_of_prefix in Hcid; [|exact Hpre].
      apply list_elem_of_filter in Hcid as [Hnone Hcid].
      split; [done|]. split; [|by apply elem_of_elements].
      destruct (doi_cache w !! cid) eqn:E; [|done].
      rewrite Hkeep in Hnone by (rewrite E; by eexists). by rewrite E in Hnone. }
    split; [by eapply NoDup_prefix|]. split; [done|]. split; [done|].
    split; [by apply Hcount|].
    intros cid Hcid. rewrite Hframe; [by apply Hkeep|].
    intros Hc. apply Hin in Hc as (_ & Hnone & _).
    rewrite Hnone in Hcid. by destruct Hcid. }
  destruct r as [fetch_count|].
  - destruct (Hall ltac:(by eexists)) as [_ Hcovered].
    assert (Hcov : forall c, c ∈ citations_of sections ->
                             is_Some (cache2 !! corpus_id c)).
    { intros c Hc. destruct (cache1 !! corpus_id c) eqn:E.
      - apply Hmono. rewrite E. by eexists.
      - apply Hcovered. apply list_elem_of_filter. split; [done|].
        apply elem_of_elements, elem_of_unique_corpus_ids. by exists c. }
    destruct (0 <? fetch_count).
    + exists (Some tt), cache2, k, (evs0 ++ evs ++ [SaveCache cache2]).
      destruct (Hfacts [SaveCache cache2]) as (? & ? & ? & ? & ?); [done|done|].
      split.
      { unfold save_doi_cache. cbn [doi_cache sent trace].
        by rewrite <- !app_assoc. }
      repeat (split; [done|]). done.
    + exists (Some tt), cache2, k, (evs0 ++ evs ++ []).
      destruct (Hfacts []) as (? & ? & ? & ? & ?); [done|done|].
      split.
      { by rewrite ret_run, app_nil_r, <- !app_assoc. }
      repeat (split; [done|]). done.
  - exists None, cache2, k, (evs0 ++ evs ++ []).
    destruct (Hfacts []) as (? & ? & ? & ? & ?); [done|done|].
    split; [by rewrite app_nil_r, <- !app_assoc|].
    split; [done|]. split; [done|]. split; [done|]. split; [done|].
    split; [by intros [? ?]|done].
Qed.

(** [render] reads the cache and changes nothing: it sends no request. *)
Lemma render_pure query sections w :
  render query sections w
  = (Some (write_columns (left_content query sections)
                         (right_content (doi_cache w) sections)), w).
Proof. reflexivity. Qed.

Lemma cache_covers_citations_run service m sections w w' :
  resolve_all service m sections w = (Some tt, w') ->
  forall c, c ∈ citations_of sections -> is_Some (doi_cache w' !! corpus_id c).
Proof.
  intros Hrun c Hc.
  destruct (resolve_all_run service m sections w)
    as (r & cache2 & k & evs & Heq & _ & _ & _ & _ & Hcov & _).
  rewrite Hrun in Heq. injection Heq as <- ->. cbn [doi_cache].
  by apply Hcov.
Qed.

(** C6: when the run reaches rendering, the corpus id of every citation of
    every section is a key of the cache, so the DOI that rendering reads for
    it with [doi_cache.get] is the value stored under that key (a DOI, or
    [None] for a lookup that found none); and rendering reads the cache at
    these ids only: any cache with the same values there gives the same
    output. *)
Theorem cache_covers_citations service m sections w w' :
  resolve_all service m sections w = (Some tt, w') ->
  (forall c, c ∈ citations_of sections ->
     is_Some (doi_cache w' !! corpus_id c)
     /\ doi_cache w' !! corpus_id c
        = Some (cache_get (doi_cache w') (corpus_id c)))
  /\ (forall query cache,
        (forall c, c ∈ citations_of sections ->
           cache !! corpus_id c = doi_cache w' !! corpus_id c) ->
        fst (render query sections (World cache (sent w') (trace w')))
        = fst (render query sections w')).
Proof.
  intros Hrun. split.
  - intros c Hc.
    destruct (cache_covers_citations_run _ _ _ _ _ Hrun c Hc) as [doi Hdoi].
    split; [by eexists|]. unfold cache_get. by rewrite Hdoi.
  - intros query cache Hagree. rewrite !render_pure. cbn [fst doi_cache].
    by rewrite (RendererFacts.right_content_agree cache (doi_cache w')).
Qed.

Lemma cache_covers_citations_witness :
  is_Some
    (doi_cache
       (resolve_all (fun _ => Body (Some "10.1/x")) ∅
          [MkSection "Findings" "text" None [Citation "1" "(A, 2020)" (JObj [])]]
          (World ∅ 0 [])).2 !! "1").
Proof.
  eapply (proj1 (proj1 (cache_covers_citations
            (fun _ => Body (Some "10.1/x")) ∅
            [MkSection "Findings" "text" None [Citation "1" "(A, 2020)" (JObj [])]]
            (World ∅ 0 []) _ _) (Citation "1" "(A, 2020)" (JObj [])) _)).
  Unshelve.
  - by vm_compute.
  - apply list_elem_of_here.
Defined.

(** The same for [main]: if it returns the lines of the output file, every
    corpus id cited in the extracted sections is a key of the cache. *)
Corollary main_cache_covers_citations clean_text service report_data
    legacy_file w out w' :
  main clean_text service report_data legacy_file w = (Some out, w') ->
  forall c,
    c ∈ citations_of (extract_sections_with_content clean_text report_data) ->
    is_Some (doi_cache w' !! corpus_id c).
Proof.
  intros Hrun c Hc. unfold main in Hrun.
  rewrite (bind_run (resolve_all _ _ _)) in Hrun.
  destruct (resolve_all service (parse_citation_text_file legacy_file)
              (extract_sections_with_content clean_text report_data) w)
    as [[[]|] w1] eqn:Hres; [|done].
  rewrite render_pure in Hrun. injection Hrun as _ <-.
  by eapply cache_covers_citations_run.
Qed.


End MainFacts.

(** ** TextLayout: what wrapping and justifying keep *)

Module TextLayoutMore.
Import Py PyFacts TextLayout TextLayoutSpec TextLayoutFacts.

Lemma split_from_len s : forall cur,
  sum_len (split_from cur s) + Z.of_nat (length (split_from cur s))
  <= len cur + len s + 1.
Proof.
  induction s as [|c s IH]; intros cur.
  - cbn [split_from]. destruct cur as [|a cur]; cbn [flush].
    + rewrite len_empty. cbn [sum_len fold_right length]. lia.
    + rewrite sum_len_cons. cbn [sum_len fold_right length].
      rewrite len_empty. lia.
  - cbn [split_from]. rewrite (len_cons c s). destruct (is_space c).
    + rewrite sum_len_app, length_app, Nat2Z.inj_add.
      specialize (IH EmptyString). rewrite len_empty in IH.
      destruct cur as [|a cur]; cbn [flush].
      * cbn [sum_len fold_right length]. pose proof (len_nonneg EmptyString). lia.
      * rewrite sum_len_cons. cbn [sum_len fold_right length]. lia.
    + specialize (IH (cur +:+ String c EmptyString)).
      rewrite len_app, len_cons, len_empty in IH. lia.
Qed.

(** The words of a text and one space between them take no more room than
    the text. *)
Lemma split_len text :
  sum_len (split text) + Z.of_nat (length (split text)) - 1 <= len text.
Proof.
  pose proof (split_from_len text EmptyString) as H.
  rewrite len_empty in H. unfold split. lia.
Qed.

Lemma split_from_spaces n : forall cur,
  split_from cur (repeat_char " " n) = flush cur.
Proof.
  induction n as [|n IH]; intros cur; [done|].
  cbn [repeat_char split_from]. replace (is_space " ") with true by done.
  rewrite IH. cbn [flush]. by rewrite app_nil_r.
Qed.

Lemma split_from_app_spaces s n : forall cur,
  split_from cur (s +:+ repeat_char " " n) = split_from cur s.
Proof.
  induction s as [|c s IH]; intros cur.
  - rewrite sapp_empty_l. apply split_from_spaces.
  - rewrite sapp_cons. cbn [split_from]. by rewrite !IH.
Qed.

Lemma split_from_leading_spaces n s :
  split_from EmptyString (repeat_char " " n +:+ s) = split_from EmptyString s.
Proof.
  induction n as [|n IH]; [done|].
  cbn [repeat_char]. rewrite sapp_cons. cbn [split_from].
  replace (is_space " ") with true by done. by rewrite IH.
Qed.

(** Padding on the right adds no word. *)
Lemma split_ljust text width : split (ljust text width) = split text.
Proof. unfold split, ljust, times. apply split_from_app_spaces. Qed.

(** The words come back from a justified line when every gap has a space. *)
Lemma split_justify_loop ws : forall w i q r,
  Forall word (w :: ws) -> 1 <= q ->
  split (justify_loop i q r (w :: ws)) = w :: ws.
Proof.
  induction ws as [|w' ws IH]; intros w i q r Hws Hq.
  - cbn [justify_loop]. rewrite <- (join_singleton " " w) at 1.
    by apply split_join.
  - rewrite justify_loop_cons. inversion Hws as [|? ? [Hne Hw] Hrest]; subst.
    unfold split. rewrite split_from_no_space by done.
    rewrite sapp_empty_l. unfold times.
    destruct (Z.to_nat (q + (if i <? r then 1 else 0))) as [|n] eqn:Hn.
    { destruct (i <? r); lia. }
    cbn [repeat_char]. rewrite sapp_cons. cbn [split_from].
    replace (is_space " ") with true by done.
    rewrite flush_nonempty by done.
    rewrite split_from_leading_spaces.
    fold (split (justify_loop (i + 1) q r (w' :: ws))).
    by rewrite IH.
Qed.

(** [justify_text] either pads the text on the right, or spreads the words
    of a text of two words or more that is shorter than the width: the
    spaces to hand out are then more than the gaps, so each gap gets one at
    least. *)
Lemma justify_text_cases text width :
  justify_text text width = ljust text width
  \/ exists w ws spaces,
       split text = w :: ws /\ ws <> []
       /\ spaces = width - sum_len (w :: ws)
       /\ Z.of_nat (length ws) < spaces
       /\ len text < width
       /\ justify_text text width
          = justify_loop 0 (spaces / Z.of_nat (length ws))
                         (spaces mod Z.of_nat (length ws)) (w :: ws).
Proof.
  unfold justify_text.
  destruct (_ || _) eqn:Hcond; [by left|].
  apply orb_false_elim in Hcond as [Hwords Hwidth].
  apply Z.leb_gt in Hwords, Hwidth.
  pose proof (split_len text) as Hlen.
  destruct (Z.eqb_spec (Z.of_nat (length (split text)) - 1) 0) as [|_]; [lia|].
  destruct (split text) as [|w ws] eqn:Hsplit; [cbn in Hwords; lia|].
  right. exists w, ws, (width - sum_len (w :: ws)).
  cbn [length] in *. rewrite Nat2Z.inj_succ in *.
  replace (Z.succ (Z.of_nat (length ws)) - 1) with (Z.of_nat (length ws)) by lia.
  split; [done|]. split; [by destruct ws|].
  split; [done|]. split; [lia|]. split; [lia|done].
Qed.

(** X1: for every text and every width, the justified text is as long as the
    longer of the text and the width: it is never shortened and, when the
    text is shorter than the width, it fills the width exactly. *)
Theorem justify_text_length text width :
  len (justify_text text width) = Z.max (len text) width.
Proof.
  destruct (justify_text_cases text width)
    as [-> | (w & ws & spaces & Hsplit & Hne & -> & Hgaps & Hshort & ->)];
    [apply len_ljust|].
  pose proof (split_len text) as Hlen. rewrite Hsplit in Hlen.
  cbn [length] in Hlen. rewrite Nat2Z.inj_succ in Hlen.
  set (gaps := Z.of_nat (length ws)) in *.
  set (spaces := width - sum_len (w :: ws)) in *.
  assert (Hg : 0 < gaps) by (subst gaps; destruct ws; [done | cbn; lia]).
  pose proof (Z.mod_pos_bound spaces gaps Hg) as Hmod.
  pose proof (Z.div_mod spaces gaps ltac:(lia)) as Hdm.
  assert (Hq : 0 <= spaces / gaps) by (apply Z.div_pos; lia).
  rewrite len_justify_loop by done. fold gaps.
  rewrite Z.min_r by lia. lia.
Qed.

(** X2: for every text and every width, the justified text has the words of
    the text, each once and in the same order. *)
Theorem justify_text_words text width :
  split (justify_text text width) = split text.
Proof.
  destruct (justify_text_cases text width)
    as [-> | (w & ws & spaces & Hsplit & Hne & -> & Hgaps & Hshort & ->)];
    [apply split_ljust|].
  rewrite Hsplit. apply split_justify_loop.
  - rewrite <- Hsplit. apply split_words.
  - assert (0 < Z.of_nat (length ws)) by (destruct ws; [done | cbn; lia]).
    apply Z.div_le_lower_bound; lia.
Qed.

(** A flushed line reads as the words put on it, justified or not. *)
Lemma split_render_line justify width cl :
  Forall word cl -> split (render_line justify width cl) = cl.
Proof.
  intros Hcl. unfold render_line. destruct justify; [|by apply split_join].
  destruct (justify_text_cases (join " " cl) width)
    as [-> | (w & ws & spaces & Hsplit & Hne & -> & Hgaps & Hshort & ->)].
  - rewrite split_ljust. by apply split_join.
  - rewrite split_join in Hsplit by done. subst cl.
    apply split_justify_loop; [done|].
    assert (0 < Z.of_nat (length ws)) by (destruct ws; [done | cbn; lia]).
    apply Z.div_le_lower_bound; lia.
Qed.

Lemma wrap_loop_flat width justify ws : forall st,
  Forall word (current_line st) -> Forall word ws ->
  Forall (fun l => split l <> []) (lines st) ->
  Forall word (current_line (wrap_loop width justify ws st))
  /\ flat_map split (lines (wrap_loop width justify ws st))
     ++ current_line (wrap_loop width justify ws st)
     = flat_map split (lines st) ++ current_line st ++ ws
  /\ Forall (fun l => split l <> []) (lines (wrap_loop width justify ws st)).
Proof.
  induction ws as [|w ws IH]; intros st Hcl Hws Hlines.
  - cbn. by rewrite app_nil_r.
  - rewrite wrap_loop_cons. inversion Hws as [|? ? Hw Hws']; subst.
    unfold wrap_step. cbv zeta. destruct (Z.leb _ width).
    + destruct (IH (WrapState (lines st) (current_line st ++ [w])
                              (current_length st + len w)))
        as (H1 & H2 & H3); cbn [current_line lines]; try done.
      { apply Forall_app. split; [done | by constructor]. }
      split; [done|]. split; [|done].
      rewrite H2. cbn [current_line lines]. by rewrite <- !app_assoc.
    + destruct (current_line st) as [|x cl] eqn:Hx.
      * destruct (IH (WrapState (lines st) [w] (len w)))
          as (H1 & H2 & H3); cbn [current_line lines]; try done.
        by constructor.
      * destruct (IH (WrapState
                        (lines st ++ [render_line justify width (x :: cl)])
                        [w] (len w)))
          as (H1 & H2 & H3); cbn [current_line lines].
        { by constructor. }
        { done. }
        { apply Forall_app. split; [done|]. constructor; [|constructor].
          by rewrite split_render_line. }
        split; [done|]. split; [|done].
        rewrite H2. cbn [current_line lines].
        rewrite flat_map_app. cbn [flat_map]. rewrite app_nil_r.
        rewrite split_render_line by done. by rewrite <- !app_assoc.
Qed.

(** What [wrap_text_justified] returns, from the state its loop ends in. *)
Lemma wrap_finish_cases st :
  (current_line st = [] /\ lines st = [] /\ wrap_finish st = [EmptyString])
  \/ (current_line st = [] /\ lines st <> [] /\ wrap_finish st = lines st)
  \/ (current_line st <> []
      /\ wrap_finish st = lines st ++ [join " " (current_line st)]).
Proof.
  unfold wrap_finish. destruct (current_line st) as [|x cl].
  - destruct (lines st) as [|l ls]; [by left | right; by left].
  - right. right. split; [done|]. by destruct (lines st).
Qed.

(** The lines returned read as the flushed lines and the open line. *)
Lemma wrap_finish_flat st :
  Forall word (current_line st) ->
  flat_map split (wrap_finish st)
  = flat_map split (lines st) ++ current_line st.
Proof.
  intros Hcl.
  destruct (wrap_finish_cases st)
    as [(Hc & Hl & ->) | [(Hc & Hl & ->) | (Hc & ->)]].
  - by rewrite Hc, Hl.
  - by rewrite Hc, app_nil_r.
  - rewrite flat_map_app. cbn [flat_map]. rewrite app_nil_r.
    by rewrite split_join.
Qed.

(** The loop of [wrap_text_justified] over a whole text. *)
Lemma wrap_run_flat text width justify :
  Forall word (current_line
                 (wrap_loop width justify (split text) (WrapState [] [] 0)))
  /\ flat_map split (wrap_text_justified text width justify) = split text
  /\ Forall (fun l => split l <> [])
            (lines (wrap_loop width justify (split text) (WrapState [] [] 0))).
Proof.
  destruct (wrap_loop_flat width justify (split text) (WrapState [] [] 0))
    as (Hcl & Hflat & Hlines); [constructor | apply split_words | constructor |].
  cbn [lines current_line flat_map app] in Hflat.
  split; [done|]. split; [|done].
  unfold wrap_text_justified. by rewrite wrap_finish_flat.
Qed.

(** X3: for every text and every width, justified or not, the lines of the
    wrapped text read one after the other have the words of the text, each
    once and in the same order: wrapping drops, repeats and reorders no
    word, and it never splits one. *)
Theorem wrap_words text width justify :
  flat_map split (wrap_text_justified text width justify) = split text
  /\ (forall w, w ∈ split text <->
        exists l, l ∈ wrap_text_justified text width justify /\ w ∈ split l).
Proof.
  destruct (wrap_run_flat text width justify) as (_ & Hflat & _).
  split; [done|]. intros w. rewrite <- Hflat.
  rewrite list_elem_of_In, in_flat_map. split.
  - intros (l & Hl & Hw). exists l. by rewrite !list_elem_of_In.
  - intros (l & Hl & Hw). exists l. by rewrite <- !list_elem_of_In.
Qed.

Lemma length_flat_map_split (ls : list string) :
  Forall (fun l => split l <> []) ls ->
  (length ls <= length (flat_map split ls))%nat.
Proof.
  induction 1 as [|l ls Hl _ IH]; [done|].
  cbn [flat_map length]. rewrite length_app.
  destruct (split l); [done|]. cbn [length]. lia.
Qed.

(** X5: [wrap_text_justified] always gives at least one line. A text
    without a word (empty, or whitespace only) gives the one empty line; a
    text with words gives lines that hold at least one word each, so there
    are never more lines than words. *)
Theorem wrap_lines_not_blank text width justify :
  wrap_text_justified text width justify <> []
  /\ (split text = [] ->
      wrap_text_justified text width justify = [EmptyString])
  /\ (split text <> [] ->
      Forall (fun l => split l <> [])
             (wrap_text_justified text width justify)
      /\ (length (wrap_text_justified text width justify)
          <= length (split text))%nat).
Proof.
  destruct (wrap_run_flat text width justify) as (Hcl & Hwords & Hlines).
  unfold wrap_text_justified in *.
  set (st := wrap_loop width justify (split text) (WrapState [] [] 0)) in *.
  clearbody st.
  pose proof (wrap_finish_flat st Hcl) as Hflat. rewrite Hwords in Hflat.
  assert (Hall : split text <> [] ->
                 Forall (fun l => split l <> []) (wrap_finish st)).
  { intros Hne.
    destruct (wrap_finish_cases st)
      as [(Hc & Hl & Heq) | [(Hc & Hl & Heq) | (Hc & Heq)]]; rewrite Heq.
    - rewrite Hc, Hl in Hflat. by rewrite Hflat in Hne.
    - done.
    - apply Forall_app. split; [done|]. constructor; [|constructor].
      by rewrite split_join. }
  split; [|split].
  - destruct (wrap_finish_cases st)
      as [(_ & _ & ->) | [(_ & Hl & ->) | (_ & ->)]]; [done | done |].
    by destruct (lines st).
  - intros Hempty. rewrite Hempty in Hflat. symmetry in Hflat.
    apply app_eq_nil in Hflat as [Hl Hc].
    destruct (wrap_finish_cases st)
      as [(_ & _ & ->) | [(_ & Hl' & Heq) | (Hc' & _)]]; [done | | done].
    rewrite Heq in *. destruct (lines st) as [|l ls]; [done|].
    inversion Hlines as [|? ? Hne _]; subst. cbn [flat_map] in Hl.
    by apply app_eq_nil in Hl as [? _].
  - intros Hne. split; [by apply Hall|].
    rewrite <- Hwords. by apply length_flat_map_split, Hall.
Qed.

Lemma wrap_lines_not_blank_witness :
  wrap_text_justified "   " 10 true = [EmptyString]
  /\ (length (wrap_text_justified "a bb ccc" 4 true)
      <= length (split "a bb ccc"))%nat.
Proof.
  split.
  - apply (proj1 (proj2 (wrap_lines_not_blank "   " 10 true))).
    reflexivity.
  - apply (proj2 (proj2 (wrap_lines_not_blank "a bb ccc" 4 true))).
    discriminate.
Defined.

(** The loop keeps the open line within the width, and every flushed line
    too, when no word is longer than the width. *)
Lemma wrap_loop_fits width justify ws : forall st,
  Forall word (current_line st) ->
  current_length st = sum_len (current_line st) ->
  (current_line st <> [] ->
   sum_len (current_line st) + Z.of_nat (length (current_line st)) - 1 <= width) ->
  Forall (fun l => len l <= width) (lines st) ->
  Forall word ws -> Forall (fun w => len w <= width) ws ->
  (current_line (wrap_loop width justify ws st) <> [] ->
   len (join " " (current_line (wrap_loop width justify ws st))) <= width)
  /\ Forall (fun l => len l <= width) (lines (wrap_loop width justify ws st)).
Proof.
  induction ws as [|w ws IH]; intros st Hcl Hlen Hfit Hlines Hws Hle.
  - cbn. split; [|done]. intros Hne. rewrite len_join by done. by apply Hfit.
  - rewrite wrap_loop_cons. inversion Hws; inversion Hle; subst.
    unfold wrap_step. cbv zeta.
    destruct (Z.leb_spec (current_length st + len w
                          + Z.of_nat (length (current_line st))) width)
      as [Hok|Hover].
    + apply IH; cbn [current_line current_length lines]; try done.
      * apply Forall_app. split; [done | by constructor].
      * rewrite sum_len_app, Hlen. cbn. lia.
      * intros _. rewrite sum_len_app, length_app, Nat2Z.inj_add. cbn. lia.
    + apply IH; cbn [current_line current_length lines]; try done.
      * by constructor.
      * cbn. lia.
      * intros _. cbn. lia.
      * destruct (current_line st) as [|x cl] eqn:Hx; [done|].
        apply Forall_app. split; [done|]. constructor; [|constructor].
        unfold render_line. destruct justify.
        -- rewrite len_justify_text; [lia | done | done | by apply Hfit].
        -- rewrite len_join by done. by apply Hfit.
Qed.

(** X4: when the width is not negative and no word of the text is longer
    than the width, no line of the wrapped text, justified or not, is longer
    than the width. *)
Theorem wrap_lines_within_width text width justify :
  0 <= width ->
  Forall (fun w => len w <= width) (split text) ->
  Forall (fun l => len l <= width) (wrap_text_justified text width justify).
Proof.
  intros Hwidth Hle. unfold wrap_text_justified.
  destruct (wrap_loop_fits width justify (split text) (WrapState [] [] 0))
    as (Hlast & Hlines); try done; try constructor.
  { apply split_words. }
  set (st := wrap_loop width justify (split text) (WrapState [] [] 0)) in *.
  clearbody st.
  destruct (wrap_finish_cases st)
    as [(_ & _ & ->) | [(_ & _ & ->) | (Hc & ->)]].
  - constructor; [by rewrite len_empty | constructor].
  - done.
  - apply Forall_app. split; [done|]. constructor; [by apply Hlast | constructor].
Qed.

Lemma wrap_lines_within_width_witness :
  Forall (fun l => len l <= 11)
         (wrap_text_justified "the quick brown fox" 11 true).
Proof.
  apply (wrap_lines_within_width "the quick brown fox" 11 true).
  - lia.
  - repeat constructor; vm_compute; discriminate.
Defined.

Lemma breaks_forced_snoc width ls x :
  breaks_forced width ls ->
  (forall prev, last ls = Some prev ->
     exists w rest, split x = w :: rest /\ width < len prev + 1 + len w) ->
  breaks_forced width (ls ++ [x]).
Proof.
  intros Hls Hx i l1 l2 H1 H2.
  destruct (decide (S i < length ls)%nat) as [Hlt|Hge].
  - rewrite lookup_app_l in H1, H2 by lia. by eapply Hls.
  - pose proof (lookup_lt_Some _ _ _ H2) as Hi.
    rewrite length_app in Hi. cbn [length] in Hi.
    rewrite lookup_app_r in H2 by lia.
    replace (S i - length ls)%nat with 0%nat in H2 by lia.
    injection H2 as <-.
    rewrite lookup_app_l in H1 by lia.
    apply Hx. rewrite last_lookup.
    by replace (pred (length ls)) with i by lia.
Qed.

Lemma wrap_loop_greedy width ws : forall st,
  Forall word (current_line st) ->
  current_length st = sum_len (current_line st) ->
  breaks_forced width (lines st) ->
  (forall prev, last (lines st) = Some prev ->
     exists w rest, current_line st = w :: rest
                    /\ width < len prev + 1 + len w) ->
  Forall word ws ->
  Forall word (current_line (wrap_loop width false ws st))
  /\ breaks_forced width (lines (wrap_loop width false ws st))
  /\ (forall prev, last (lines (wrap_loop width false ws st)) = Some prev ->
        exists w rest, current_line (wrap_loop width false ws st) = w :: rest
                       /\ width < len prev + 1 + len w).
Proof.
  induction ws as [|w ws IH]; intros st Hcl Hlen Hadj Hlast Hws; [done|].
  rewrite wrap_loop_cons. inversion Hws as [|? ? Hw Hws']; subst.
  unfold wrap_step. cbv zeta.
  destruct (Z.leb_spec (current_length st + len w
                        + Z.of_nat (length (current_line st))) width)
    as [Hok|Hover].
  - apply IH; cbn [current_line current_length lines]; try done.
    + apply Forall_app. split; [done | by constructor].
    + rewrite sum_len_app, Hlen. cbn. lia.
    + intros prev Hprev. destruct (Hlast prev Hprev) as (x & rest & -> & Hx).
      by exists x, (rest ++ [w]).
  - destruct (current_line st) as [|x cl] eqn:Hx.
    + apply IH; cbn [current_line current_length lines]; try done.
      * by constructor.
      * cbn. lia.
      * intros prev Hprev. by destruct (Hlast prev Hprev) as (? & ? & ? & _).
    + apply IH; cbn [current_line current_length lines]; try done.
      * by constructor.
      * cbn. lia.
      * apply breaks_forced_snoc; [done|]. intros prev Hprev.
        destruct (Hlast prev Hprev) as (x' & rest & Heq & Hfar).
        injection Heq as <- <-. exists x, cl. split; [|done].
        unfold render_line. by apply split_join.
      * intros prev Hprev. rewrite last_snoc in Hprev.
        assert (prev = join " " (x :: cl)) as -> by (by injection Hprev).
        exists w, []. split; [done|].
        rewrite len_join by done. rewrite Hlen in Hover. lia.
Qed.

(** X6: the filling is greedy. In the wrapped text without justification,
    the first word of every line after the first one did not fit on the
    line before it: that line, one space and the word are longer than the
    width. *)
Theorem wrap_greedy text width (i : nat) l1 l2 :
  wrap_text_justified text width false !! i = Some l1 ->
  wrap_text_justified text width false !! S i = Some l2 ->
  exists w rest, split l2 = w :: rest /\ width < len l1 + 1 + len w.
Proof.
  unfold wrap_text_justified.
  destruct (wrap_loop_greedy width (split text) (WrapState [] [] 0))
    as (Hcl & Hadj & Hlast).
  { constructor. }
  { done. }
  { intros i' ? ? H. cbn [lines] in H. by rewrite lookup_nil in H. }
  { done. }
  { apply split_words. }
  set (st := wrap_loop width false (split text) (WrapState [] [] 0)) in *.
  clearbody st.
  assert (Hall : breaks_forced width (wrap_finish st)).
  { destruct (wrap_finish_cases st)
      as [(_ & _ & ->) | [(_ & _ & ->) | (Hc & ->)]].
    - intros [|?] ? ? ? ?; done.
    - done.
    - apply breaks_forced_snoc; [done|]. intros prev Hprev.
      destruct (Hlast prev Hprev) as (x & rest & Heq & Hfar).
      exists x, rest. rewrite Heq in *. split; [by apply split_join | done]. }
  intros H1 H2. by eapply Hall.
Qed.

Lemma wrap_greedy_witness :
  exists w rest, split "brown fox" = w :: rest /\ 11 < len "the quick" + 1 + len w.
Proof.
  apply (wrap_greedy "the quick brown fox jumps" 11 0 "the quick" "brown fox");
    reflexivity.
Defined.

End TextLayoutMore.

(** ** [clean_text] *)

Module CleanerFacts.
Import Py PyFacts Legacy Cleaner.

(** *** Whitespace *)

Lemma rstrip_cons c s :
  rstrip (String c s)
  = match rstrip s with
    | EmptyString => if is_space c then EmptyString else String c EmptyString
    | r => String c r
    end.
Proof. reflexivity. Qed.

Lemma rstrip_app_blank a b :
  rstrip b = EmptyString -> rstrip (a +:+ b) = rstrip a.
Proof.
  intros Hb. induction a as [|x a IH]; [by rewrite sapp_empty_l|].
  by rewrite sapp_cons, !rstrip_cons, IH.
Qed.

Lemma rstrip_app_keep a b :
  rstrip b <> EmptyString -> rstrip (a +:+ b) = a +:+ rstrip b.
Proof.
  intros Hb. induction a as [|x a IH]; [by rewrite !sapp_empty_l|].
  rewrite !sapp_cons, rstrip_cons, IH.
  destruct a; [|done]. rewrite sapp_empty_l. by destruct (rstrip b).
Qed.

Lemma rstrip_no_space s : no_space s = true -> rstrip s = s.
Proof.
  induction s as [|c s IH]; [done|]. cbn [no_space].
  intros [Hc Hs]%andb_prop. apply negb_true_iff in Hc.
  rewrite rstrip_cons, IH, Hc by done. by destruct s.
Qed.

Lemma lstrip_collapse_true s :
  lstrip (collapse_from true s) = collapse_from true s.
Proof.
  induction s as [|c s IH]; [done|]. cbn [collapse_from].
  destruct (is_space c) eqn:Hc; [done|]. cbn [lstrip]. by rewrite Hc.
Qed.

Lemma join_words_empty ws :
  Forall word ws -> join " " ws = EmptyString -> ws = [].
Proof.
  intros Hws Hj. destruct ws as [|w ws]; [done|].
  inversion Hws as [|? ? [Hne _] _]; subst.
  destruct ws; [by rewrite join_singleton in Hj|].
  rewrite join_cons in Hj by done. by destruct w.
Qed.

(** Collapsing the runs of whitespace and stripping the ends leaves the
    words, one space between them. *)
Lemma strip_collapse_from s :
  (forall cur, cur <> EmptyString -> no_space cur = true ->
     rstrip (cur +:+ collapse_from false s) = join " " (split_from cur s))
  /\ (forall b, rstrip (lstrip (collapse_from b s))
                = join " " (split_from EmptyString s)).
Proof.
  induction s as [|c s [IH1 IH2]].
  - split.
    + intros cur Hne Hcur. cbn [collapse_from split_from].
      rewrite sapp_empty_r, flush_nonempty, join_singleton by done.
      by apply rstrip_no_space.
    + by intros b.
  - destruct (is_space c) eqn:Hc.
    + assert (Hk : rstrip (collapse_from true s)
                   = join " " (split_from EmptyString s)).
      { rewrite <- (IH2 true). by rewrite lstrip_collapse_true. }
      split.
      * intros cur Hne Hcur. cbn [collapse_from split_from]. rewrite Hc.
        rewrite flush_nonempty by done. cbn [app].
        pose proof (split_from_words s EmptyString eq_refl) as Hws.
        destruct (split_from EmptyString s) as [|w ws] eqn:Hsplit.
        -- rewrite join_singleton.
           rewrite rstrip_app_blank; [by apply rstrip_no_space|].
           rewrite rstrip_cons, Hk. reflexivity.
        -- assert (Hne' : rstrip (collapse_from true s) <> EmptyString).
           { rewrite Hk. intros Hj. by apply join_words_empty in Hj. }
           rewrite rstrip_app_keep.
           ++ rewrite rstrip_cons.
              destruct (rstrip (collapse_from true s)) eqn:E; [done|].
              rewrite Hk. by rewrite (join_cons " " cur (w :: ws)).
           ++ rewrite rstrip_cons.
              by destruct (rstrip (collapse_from true s)).
      * intros b. cbn [collapse_from split_from]. rewrite Hc.
        cbn [flush app].
        destruct b; [by rewrite lstrip_collapse_true|].
        cbn [lstrip]. replace (is_space " ") with true by done.
        by rewrite lstrip_collapse_true.
    + assert (Hone : forall cur, no_space cur = true ->
                rstrip ((cur +:+ String c EmptyString) +:+ collapse_from false s)
                = join " " (split_from (cur +:+ String c EmptyString) s)).
      { intros cur Hcur. apply IH1; [by destruct cur|].
        rewrite no_space_app, Hcur. cbn. by rewrite Hc. }
      split.
      * intros cur Hne Hcur. cbn [collapse_from split_from]. rewrite Hc.
        rewrite <- Hone by done. by rewrite sapp_assoc.
      * intros b. cbn [collapse_from split_from]. rewrite Hc.
        cbn [lstrip]. rewrite Hc.
        by rewrite <- (Hone EmptyString eq_refl).
Qed.

Lemma strip_collapse s : strip (collapse s) = join " " (split s).
Proof. apply (proj2 (strip_collapse_from s) false). Qed.

(** X7: what [clean_text] returns is its own words joined by single spaces:
    it has no whitespace at either end, no two whitespace characters in a
    row and no whitespace character but the space. The two whitespace steps
    together are the words of the text before them, joined by single
    spaces. *)
Theorem clean_text_single_spaced text :
  clean_text text = join " " (split (remove_tags (sub_paper text)))
  /\ join " " (split (clean_text text)) = clean_text text.
Proof.
  assert (H : clean_text text
              = join " " (split (remove_tags (sub_paper text))))
    by apply strip_collapse.
  split; [done|]. rewrite H.
  by rewrite split_join by apply split_words.
Qed.

(** *** Tags *)

Lemma is_char_eq c d : is_char c d = true -> c = d.
Proof. apply Ascii.eqb_eq. Qed.

Lemma has_char_remove_tags c s : forall b,
  has_char c s = false -> has_char c (remove_tags_from b s) = false.
Proof.
  induction s as [|d s IH]; intros b Hs; [done|].
  cbn [has_char] in Hs. apply orb_false_elim in Hs as [Hd Hs].
  cbn [remove_tags_from]. destruct b; [by apply IH|].
  destruct (is_char d "<" && tag_start s); [by apply IH|].
  cbn [has_char]. by rewrite Hd, IH.
Qed.

Lemma tag_start_no_gt s : has_char ">" s = false -> tag_start s = false.
Proof.
  destruct s as [|d t]; [done|]. cbn [has_char tag_start].
  intros [_ ->]%orb_false_elim. apply andb_false_r.
Qed.

(** Why a tag does not start at [s]: [s] is empty, begins with [>], or
    holds no [>]. *)
Lemma tag_start_false s :
  tag_start s = false ->
  s = EmptyString \/ (exists t, s = String ">" t) \/ has_char ">" s = false.
Proof.
  destruct s as [|d t]; [by left|]. cbn [tag_start has_char].
  destruct (is_char d ">") eqn:Hd.
  - intros _. apply is_char_eq in Hd as ->. right. left. by eexists.
  - cbn [negb andb orb]. intros Ht. by right; right.
Qed.

Lemma tag_start_gt t : tag_start (String ">" t) = false.
Proof. reflexivity. Qed.

Lemma tag_start_remove_tags s :
  tag_start s = false -> tag_start (remove_tags_from false s) = false.
Proof.
  intros [-> | [[t ->] | Hs]]%tag_start_false; [done | done |].
  by apply tag_start_no_gt, has_char_remove_tags.
Qed.

Lemma has_tag_remove_tags s : forall b, has_tag (remove_tags_from b s) = false.
Proof.
  induction s as [|c s IH]; intros b; [done|].
  cbn [remove_tags_from]. destruct b; [by apply IH|].
  destruct (is_char c "<" && tag_start s) eqn:Htag; [by apply IH|].
  cbn [has_tag]. rewrite IH, orb_false_r.
  apply andb_false_iff in Htag as [-> | Htag]; [done|].
  rewrite tag_start_remove_tags by done. apply andb_false_r.
Qed.

Lemma has_char_collapse s : forall b,
  has_char ">" s = false -> has_char ">" (collapse_from b s) = false.
Proof.
  induction s as [|d s IH]; intros b Hs; [done|].
  cbn [has_char] in Hs. apply orb_false_elim in Hs as [Hd Hs].
  cbn [collapse_from]. destruct (is_space d).
  - destruct b; [by apply IH|]. cbn [has_char]. by rewrite IH.
  - cbn [has_char]. by rewrite Hd, IH.
Qed.

Lemma tag_start_collapse s :
  tag_start s = false -> tag_start (collapse_from false s) = false.
Proof.
  intros [-> | [[t ->] | Hs]]%tag_start_false; [done | done |].
  by apply tag_start_no_gt, has_char_collapse.
Qed.

Lemma has_tag_cons c s :
  has_tag (String c s) = false ->
  (is_char c "<" && tag_start s) = false /\ has_tag s = false.
Proof. cbn [has_tag]. apply orb_false_elim. Qed.

Lemma has_tag_cons_false c s :
  (is_char c "<" && tag_start s) = false -> has_tag s = false ->
  has_tag (String c s) = false.
Proof. intros H1 H2. cbn [has_tag]. fold has_tag. by rewrite H1, H2. Qed.

Lemma has_tag_collapse s : forall b,
  has_tag s = false -> has_tag (collapse_from b s) = false.
Proof.
  induction s as [|c s IH]; intros b Hs; [done|].
  apply has_tag_cons in Hs as [Hc Hs]. cbn [collapse_from].
  destruct (is_space c).
  - destruct b; [by apply IH|]. cbn [has_tag]. by rewrite IH.
  - cbn [has_tag]. rewrite IH, orb_false_r by done.
    apply andb_false_iff in Hc as [-> | Hc]; [done|].
    rewrite tag_start_collapse by done. apply andb_false_r.
Qed.

Lemma has_tag_lstrip s : has_tag s = false -> has_tag (lstrip s) = false.
Proof.
  induction s as [|c s IH]; intros Hs; [done|].
  cbn [lstrip]. destruct (is_space c); [|done].
  apply has_tag_cons in Hs as [_ Hs]. by apply IH.
Qed.

Lemma has_char_rstrip c s :
  has_char c s = false -> has_char c (rstrip s) = false.
Proof.
  induction s as [|d s IH]; intros Hs; [done|].
  cbn [has_char] in Hs. apply orb_false_elim in Hs as [Hd Hs].
  rewrite rstrip_cons. specialize (IH Hs).
  destruct (rstrip s) as [|e r].
  - destruct (is_space d); [done|]. cbn [has_char]. by rewrite Hd.
  - cbn [has_char] in *. by rewrite Hd, IH.
Qed.

Lemma tag_start_rstrip s :
  tag_start s = false -> tag_start (rstrip s) = false.
Proof.
  intros [-> | [[t ->] | Hs]]%tag_start_false; [done | |].
  - rewrite rstrip_cons. by destruct (rstrip t).
  - by apply tag_start_no_gt, has_char_rstrip.
Qed.

Lemma has_tag_rstrip s : has_tag s = false -> has_tag (rstrip s) = false.
Proof.
  induction s as [|c s IH]; intros Hs; [done|].
  apply has_tag_cons in Hs as [Hc Hs]. rewrite rstrip_cons.
  specialize (IH Hs). pose proof (tag_start_rstrip s) as Hts.
  destruct (rstrip s) as [|e r].
  - destruct (is_space c); [done|]. cbn [has_tag tag_start].
    by rewrite andb_false_r.
  - apply has_tag_cons_false; [|done].
    apply andb_false_iff in Hc as [-> | Hc]; [done|].
    rewrite Hts by done. apply andb_false_r.
Qed.

(** X8: what [clean_text] returns holds no markup tag: nowhere in it stands
    a [<] followed by one or more characters that are no [>] and then a
    [>]. *)
Theorem clean_text_no_tag text : has_tag (clean_text text) = false.
Proof.
  unfold clean_text, strip, collapse, remove_tags.
  apply has_tag_rstrip, has_tag_lstrip, has_tag_collapse, has_tag_remove_tags.
Qed.

(** *** Text without markup *)

Lemma strip_prefix_mismatch a p c s :
  Ascii.eqb a c = false -> strip_prefix (String a p) (String c s) = None.
Proof. intros H. cbn [strip_prefix]. by rewrite H. Qed.

Lemma match_paper_not_lt c s :
  is_char c "<" = false -> match_paper (String c s) = None.
Proof.
  intros Hc. unfold match_paper.
  rewrite strip_prefix_mismatch; [done|].
  unfold is_char in Hc. by rewrite Ascii.eqb_sym.
Qed.

Lemma sub_paper_plain s :
  has_char "<" s = false -> sub_paper_from 0 s = s.
Proof.
  induction s as [|c s IH]; intros Hs; [done|].
  cbn [has_char] in Hs. apply orb_false_elim in Hs as [Hc Hs].
  cbn [sub_paper_from]. rewrite match_paper_not_lt by done.
  by rewrite IH.
Qed.

Lemma remove_tags_plain s :
  has_char "<" s = false -> remove_tags_from false s = s.
Proof.
  induction s as [|c s IH]; intros Hs; [done|].
  cbn [has_char] in Hs. apply orb_false_elim in Hs as [Hc Hs].
  cbn [remove_tags_from]. rewrite Hc. cbn [andb]. by rewrite IH.
Qed.

(** X9: a text that holds no [<] is only normalised in its whitespace: the
    result is its words joined by single spaces. *)
Theorem clean_text_plain text :
  has_char "<" text = false -> clean_text text = join " " (split text).
Proof.
  intros Hplain. unfold clean_text, sub_paper, remove_tags.
  rewrite sub_paper_plain, remove_tags_plain by done.
  apply strip_collapse.
Qed.

Lemma clean_text_plain_witness :
  clean_text "  models   are big " = join " " (split "  models   are big ").
Proof. apply (clean_text_plain "  models   are big "). reflexivity. Defined.

(** *** The Paper tag *)

Lemma string_length_app a b :
  String.length (a +:+ b) = (String.length a + String.length b)%nat.
Proof.
  induction a as [|c a IH]; [done|].
  rewrite sapp_cons. cbn [String.length]. by rewrite IH.
Qed.

Lemma strip_prefix_app p s : strip_prefix p (p +:+ s) = Some s.
Proof.
  induction p as [|a p IH]; [done|].
  rewrite sapp_cons. cbn [strip_prefix]. by rewrite Ascii.eqb_refl.
Qed.

Lemma strip_prefix_Some p : forall s u,
  strip_prefix p s = Some u -> s = p +:+ u.
Proof.
  induction p as [|a p IH]; intros s u H.
  - cbn in H. by injection H as ->.
  - destruct s as [|b s]; [done|]. cbn [strip_prefix] in H.
    destruct (Ascii.eqb a b) eqn:Hab; [|done].
    apply Ascii.eqb_eq in Hab as ->. by rewrite (IH s u H).
Qed.

Lemma has_char_app c a b :
  has_char c (a +:+ b) = has_char c a || has_char c b.
Proof.
  induction a as [|d a IH]; [done|].
  rewrite sapp_cons. cbn [has_char]. by rewrite IH, orb_assoc.
Qed.

Lemma span_until d x y :
  has_char d x = false ->
  span (fun c => negb (is_char c d)) (x +:+ String d y) = (x, String d y).
Proof.
  induction x as [|c x IH]; intros Hx.
  - rewrite sapp_empty_l. cbn [span]. unfold is_char.
    by rewrite Ascii.eqb_refl.
  - cbn [has_char] in Hx. apply orb_false_elim in Hx as [Hc Hx].
    rewrite sapp_cons. cbn [span]. rewrite Hc. cbn [negb]. by rewrite IH.
Qed.

Lemma match_title_tag label a2 post :
  label <> EmptyString -> has_char dquote label = false ->
  has_char ">" a2 = false ->
  match_title (label +:+ String dquote (a2 +:+ "></Paper>" +:+ post))
  = Some (label, post).
Proof.
  intros Hne Hlabel Ha2. unfold match_title.
  rewrite span_until by done. destruct label as [|a g]; [done|].
  change ("></Paper>" +:+ post) with (String ">" ("</Paper>" +:+ post)).
  rewrite span_until by done. cbn [snd].
  change (String ">" ("</Paper>" +:+ post)) with ("></Paper>" +:+ post).
  by rewrite strip_prefix_app.
Qed.

Lemma no_eq_run_lit u : no_eq_run (lit_title +:+ u) = false.
Proof. reflexivity. Qed.

(** Without an [=] before the next [>] the literal stands nowhere. *)
Lemma match_attrs_no_eq s : no_eq_run s = true -> match_attrs s = None.
Proof.
  induction s as [|c s IH]; intros Hs; [done|].
  cbn [match_attrs]. cbn [no_eq_run] in Hs.
  destruct (is_char c ">"); [done|].
  apply andb_prop in Hs as [Hc Hs]. rewrite IH by done.
  destruct (strip_prefix lit_title (String c s)) as [u|] eqn:Hu; [|done].
  apply strip_prefix_Some in Hu.
  assert (Hrun : no_eq_run (String c s) = true)
    by (cbn [no_eq_run]; destruct (is_char c ">"); [done | by rewrite Hc, Hs]).
  by rewrite Hu, no_eq_run_lit in Hrun.
Qed.

Lemma no_eq_run_app x y :
  has_char "=" x = false -> no_eq_run y = true -> no_eq_run (x +:+ y) = true.
Proof.
  induction x as [|c x IH]; intros Hx Hy; [done|].
  cbn [has_char] in Hx. apply orb_false_elim in Hx as [Hc Hx].
  rewrite sapp_cons. cbn [no_eq_run]. rewrite Hc, IH by done.
  by destruct (is_char c ">").
Qed.

Lemma match_attrs_lit u r :
  match_attrs u = None -> match_title u = Some r ->
  match_attrs (lit_title +:+ u) = Some r.
Proof.
  intros Hnone Htitle.
  change (lit_title +:+ u)
    with (String "p" (String "a" (String "p" (String "e" (String "r"
           (String "T" (String "i" (String "t" (String "l" (String "e"
           (String "=" (String dquote u)))))))))))).
  cbn [match_attrs is_char]. rewrite Hnone.
  cbn. exact Htitle.
Qed.

Lemma match_attrs_skip a1 q r :
  has_char ">" a1 = false -> match_attrs q = Some r ->
  match_attrs (a1 +:+ q) = Some r.
Proof.
  induction a1 as [|c a1 IH]; intros Ha Hq; [done|].
  cbn [has_char] in Ha. apply orb_false_elim in Ha as [Hc Ha].
  rewrite sapp_cons. cbn [match_attrs]. by rewrite Hc, IH.
Qed.

Lemma match_paper_tag a1 label a2 post :
  has_char ">" a1 = false ->
  label <> EmptyString -> has_char dquote label = false ->
  has_char "=" label = false ->
  has_char ">" a2 = false -> has_char "=" a2 = false ->
  match_paper ("<Paper" +:+ a1 +:+ lit_title +:+ label
               +:+ String dquote (a2 +:+ "></Paper>" +:+ post))
  = Some (label, post).
Proof.
  intros Ha1 Hne Hq Heq Ha2 Heq2. unfold match_paper.
  rewrite strip_prefix_app. apply match_attrs_skip; [done|].
  apply match_attrs_lit; [|by apply match_title_tag].
  apply match_attrs_no_eq, no_eq_run_app; [done|].
  change (String dquote (a2 +:+ "></Paper>" +:+ post))
    with (String dquote EmptyString +:+ (a2 +:+ "></Paper>" +:+ post)).
  apply no_eq_run_app; [done|]. by apply no_eq_run_app.
Qed.

Lemma sub_paper_skip x y :
  sub_paper_from (String.length x) (x +:+ y) = sub_paper_from 0 y.
Proof.
  induction x as [|c x IH]; [done|].
  rewrite sapp_cons. cbn [String.length sub_paper_from]. apply IH.
Qed.

Lemma sub_paper_pre pre s :
  has_char "<" pre = false ->
  sub_paper_from 0 (pre +:+ s) = pre +:+ sub_paper_from 0 s.
Proof.
  induction pre as [|c pre IH]; intros Hpre; [done|].
  cbn [has_char] in Hpre. apply orb_false_elim in Hpre as [Hc Hpre].
  rewrite !sapp_cons. cbn [sub_paper_from].
  rewrite match_paper_not_lt by done. by rewrite IH.
Qed.

(** The substitution of line 105 at the first Paper tag of a text. *)
Lemma sub_paper_tag pre a1 label a2 post :
  has_char "<" pre = false ->
  has_char ">" a1 = false ->
  label <> EmptyString -> has_char dquote label = false ->
  has_char "=" label = false ->
  has_char ">" a2 = false -> has_char "=" a2 = false ->
  sub_paper (pre +:+ "<Paper" +:+ a1 +:+ lit_title +:+ label
             +:+ String dquote (a2 +:+ "></Paper>" +:+ post))
  = pre +:+ label +:+ sub_paper post.
Proof.
  intros Hpre Ha1 Hne Hq Heq Ha2 Heq2. unfold sub_paper.
  rewrite sub_paper_pre by done. f_equal.
  set (inner := "Paper" +:+ a1 +:+ lit_title +:+ label
                +:+ String dquote (a2 +:+ "></Paper>")).
  assert (Hshape : "<Paper" +:+ a1 +:+ lit_title +:+ label
                   +:+ String dquote (a2 +:+ "></Paper>" +:+ post)
                   = String "<" (inner +:+ post)).
  { subst inner. unfold lit_title.
    repeat (rewrite sapp_assoc || rewrite sapp_cons || rewrite sapp_empty_l).
    reflexivity. }
  pose proof (match_paper_tag a1 label a2 post Ha1 Hne Hq Heq Ha2 Heq2) as Hm.
  rewrite Hshape in *. cbn [sub_paper_from]. rewrite Hm. f_equal.
  rewrite string_length_app.
  replace (String.length inner + String.length post - String.length post)%nat
    with (String.length inner) by lia.
  apply sub_paper_skip.
Qed.

(** X10: in a text whose first [<] opens a Paper tag, the tag is replaced
    by its title and the text after it is treated in the same way, when the
    attributes before the title hold no [>], the title is not empty and
    holds no quote and no [=], and the attributes after the title hold no
    [>] and no [=]. When the title and the text after the tag hold no [<]
    either, the result is the words of the text with the title in the place
    of the tag, joined by single spaces. *)
Theorem clean_text_paper_tag pre a1 label a2 post :
  has_char "<" pre = false ->
  has_char ">" a1 = false ->
  label <> EmptyString -> has_char dquote label = false ->
  has_char "=" label = false ->
  has_char ">" a2 = false -> has_char "=" a2 = false ->
  clean_text (pre +:+ "<Paper" +:+ a1 +:+ lit_title +:+ label
              +:+ String dquote (a2 +:+ "></Paper>" +:+ post))
  = join " " (split (remove_tags (pre +:+ label +:+ sub_paper post)))
  /\ (has_char "<" label = false -> has_char "<" post = false ->
      clean_text (pre +:+ "<Paper" +:+ a1 +:+ lit_title +:+ label
                  +:+ String dquote (a2 +:+ "></Paper>" +:+ post))
      = join " " (split (pre +:+ label +:+ post))).
Proof.
  intros Hpre Ha1 Hne Hq Heq Ha2 Heq2.
  assert (H : clean_text (pre +:+ "<Paper" +:+ a1 +:+ lit_title +:+ label
                          +:+ String dquote (a2 +:+ "></Paper>" +:+ post))
              = join " " (split (remove_tags (pre +:+ label +:+ sub_paper post)))).
  { unfold clean_text. rewrite sub_paper_tag by done. apply strip_collapse. }
  split; [done|]. intros Hlabel Hpost. rewrite H.
  unfold sub_paper, remove_tags. rewrite sub_paper_plain by done.
  rewrite remove_tags_plain; [done|].
  by rewrite !has_char_app, Hpre, Hlabel, Hpost.
Qed.

Lemma clean_text_paper_tag_witness :
  clean_text ("Models " +:+ "<Paper" +:+ " corpusId=1 " +:+ lit_title
              +:+ "(Smith, 2020)"
              +:+ String dquote (" isShortName" +:+ "></Paper>" +:+ "  are big."))
  = join " " (split (remove_tags ("Models " +:+ "(Smith, 2020)"
                                  +:+ sub_paper "  are big."))).
Proof.
  apply (clean_text_paper_tag "Models " " corpusId=1 " "(Smith, 2020)"
           " isShortName" "  are big."); reflexivity || discriminate.
Defined.

End CleanerFacts.

(** ** The legacy citation file *)

Module LegacyFacts.
Import Py PyFacts Legacy LegacyFile Cleaner CleanerFacts.

Lemma lstrip_cases s :
  lstrip s = EmptyString
  \/ exists c t, lstrip s = String c t /\ is_space c = false.
Proof.
  induction s as [|c s IH]; [by left|]. cbn [lstrip].
  destruct (is_space c) eqn:Hc; [done|]. right. by exists c, s.
Qed.

Lemma rstrip_head c t :
  is_space c = false -> exists r, rstrip (String c t) = String c r.
Proof.
  intros Hc. rewrite rstrip_cons, Hc. destruct (rstrip t); by eexists.
Qed.

Lemma rstrip_idem s : rstrip (rstrip s) = rstrip s.
Proof.
  induction s as [|c s IH]; [done|]. rewrite rstrip_cons.
  destruct (rstrip s) as [|d r] eqn:E.
  - destruct (is_space c) eqn:Hc; [done|]. by rewrite rstrip_cons, Hc.
  - by rewrite rstrip_cons, IH.
Qed.

(** A string that begins with a character that is no whitespace keeps it
    when stripped: it is not stripped to nothing. *)
Lemma strip_head c t :
  is_space c = false -> exists r, strip (String c t) = String c r.
Proof.
  intros Hc. unfold strip. cbn [lstrip]. rewrite Hc. by apply rstrip_head.
Qed.

Lemma strip_idem s : strip (strip s) = strip s.
Proof.
  unfold strip at 2 3.
  destruct (lstrip_cases s) as [-> | (c & t & -> & Hc)]; [done|].
  destruct (rstrip_head c t Hc) as [r Hr].
  unfold strip. rewrite Hr. cbn [lstrip]. rewrite Hc.
  by rewrite <- Hr, rstrip_idem.
Qed.

(** The second group of a matched line begins with a character that is no
    whitespace. *)
Lemma match_citation_line_doi line g1 g2 :
  match_citation_line line = Some (g1, g2) ->
  exists c t, g2 = String c t /\ is_space c = false.
Proof.
  unfold match_citation_line.
  destruct line as [|c0 rest]; [done|].
  destruct (Ascii.eqb_spec c0 "(") as [->|Hne].
  2:{ intros H. exfalso. revert H.
      destruct c0 as [[] [] [] [] [] [] [] []]; try done. }
  destruct (span _ rest) as [[|a g] [|b after_paren]]; try done.
  destruct (lstrip after_paren) as [|d1 [|d2 after_arrow]]; try done.
  { by destruct d1 as [[] [] [] [] [] [] [] []]. }
  destruct (Ascii.eqb_spec d1 "-") as [->|Hd1].
  2:{ intros H. exfalso. revert H.
      destruct d1 as [[] [] [] [] [] [] [] []]; try done;
      destruct d2 as [[] [] [] [] [] [] [] []]; done. }
  destruct (Ascii.eqb_spec d2 ">") as [->|Hd2].
  2:{ intros H. exfalso. revert H.
      destruct d2 as [[] [] [] [] [] [] [] []]; done. }
  destruct (lstrip_cases after_arrow) as [-> | (c & t & -> & Hc)]; [done|].
  cbn [span]. destruct (negb (is_char c "010")); [|done].
  destruct (span _ t) as [x y]. cbn [fst].
  intros H. injection H as _ <-. by exists c, x.
Qed.

Lemma parse_line_values m line :
  (forall k v, m !! k = Some v ->
     v <> EmptyString /\ strip v = v /\ strip k = k) ->
  forall k v, parse_line m line !! k = Some v ->
    v <> EmptyString /\ strip v = v /\ strip k = k.
Proof.
  intros Hm k v. unfold parse_line.
  destruct (_ || _); [by apply Hm|].
  destruct (match_citation_line (strip line)) as [[g1 g2]|] eqn:Hmatch;
    [|by apply Hm].
  destruct (decide (strip g1 = k)) as [<-|Hne].
  - rewrite lookup_insert_eq. intros [= <-].
    destruct (match_citation_line_doi _ _ _ Hmatch) as (c & t & -> & Hc).
    destruct (strip_head c t Hc) as [r Hr].
    split; [by rewrite Hr|]. by rewrite !strip_idem.
  - rewrite lookup_insert_ne by done. by apply Hm.
Qed.

Lemma fold_parse_line_values file_lines : forall m,
  (forall k v, m !! k = Some v ->
     v <> EmptyString /\ strip v = v /\ strip k = k) ->
  forall k v, fold_left parse_line file_lines m !! k = Some v ->
    v <> EmptyString /\ strip v = v /\ strip k = k.
Proof.
  induction file_lines as [|line ls IH]; intros m Hm; [done|].
  cbn [fold_left]. apply IH. by apply parse_line_values.
Qed.

(** X11: whatever the legacy file holds, every entry read from it has a DOI
    that is not empty, and a label and a DOI without whitespace at either
    end. *)
Theorem parse_citation_text_file_entries file k v :
  parse_citation_text_file file !! k = Some v ->
  v <> EmptyString /\ strip v = v /\ strip k = k.
Proof.
  destruct file as [file_lines|]; cbn [parse_citation_text_file].
  - apply fold_parse_line_values. intros k' v' H.
    by rewrite lookup_empty in H.
  - intros H. by rewrite lookup_empty in H.
Qed.

Lemma parse_citation_text_file_entries_witness :
  "10.1/b" <> EmptyString /\ strip "10.1/b" = "10.1/b" /\ strip "X" = "X".
Proof.
  apply (parse_citation_text_file_entries (Some ["  (X)  ->  10.1/b  "]) "X" "10.1/b").
  by vm_compute.
Defined.

(** *** A line of the legacy format *)

Lemma stripped_ends s :
  strip s = s -> s <> EmptyString ->
  lstrip s = s /\ rstrip s = s
  /\ exists c t, s = String c t /\ is_space c = false.
Proof.
  intros Hs Hne. unfold strip in Hs.
  destruct (lstrip_cases s) as [El | (c & t & El & Hc)].
  - rewrite El in Hs. by subst s.
  - rewrite El in Hs. destruct (rstrip_head c t Hc) as [r Hr].
    assert (Hl : lstrip s = s).
    { rewrite <- Hs at 1. rewrite Hr. cbn [lstrip]. rewrite Hc.
      by rewrite <- Hr. }
    split; [done|]. split; [by rewrite <- El, Hl in Hs|].
    exists c, r. split; [by rewrite <- Hs, Hr | done].
Qed.

Lemma prefix_app p s : String.prefix p (p +:+ s) = true.
Proof.
  induction p as [|a p IH]; [by destruct s|].
  rewrite sapp_cons. cbn [String.prefix].
  by destruct (ascii_dec a a).
Qed.

Lemma contains_app sub x y : contains sub (x +:+ sub +:+ y) = true.
Proof.
  induction x as [|c x IH].
  - rewrite sapp_empty_l. destruct (sub +:+ y) eqn:E;
      cbn [contains]; rewrite <- E, prefix_app; done.
  - rewrite sapp_cons. cbn [contains]. rewrite IH. apply orb_true_r.
Qed.

Lemma span_all d s :
  has_char d s = false ->
  span (fun c => negb (is_char c d)) s = (s, EmptyString).
Proof.
  induction s as [|c s IH]; intros Hs; [done|].
  cbn [has_char] in Hs. apply orb_false_elim in Hs as [Hc Hs].
  cbn [span]. rewrite Hc. cbn [negb]. by rewrite IH.
Qed.

Lemma match_citation_line_written name doi :
  name <> EmptyString -> has_char ")" name = false ->
  doi <> EmptyString -> lstrip doi = doi -> has_char "010" doi = false ->
  match_citation_line ("(" +:+ name +:+ ") -> " +:+ doi) = Some (name, doi).
Proof.
  intros Hname Hparen Hdoi Hl Hnl.
  change ("(" +:+ name +:+ ") -> " +:+ doi)
    with (String "(" (name +:+ String ")" (" -> " +:+ doi))).
  cbn [match_citation_line]. rewrite span_until by done.
  destruct name as [|a g]; [done|].
  change (lstrip (" -> " +:+ doi))
    with (String "-" (String ">" (" " +:+ doi))).
  cbn iota beta. change (lstrip (" " +:+ doi)) with (lstrip doi).
  rewrite Hl, span_all by done. cbn [fst]. by destruct doi.
Qed.

Lemma parse_line_written m name doi :
  name <> EmptyString -> strip name = name -> has_char ")" name = false ->
  doi <> EmptyString -> strip doi = doi -> has_char "010" doi = false ->
  parse_line m ("(" +:+ name +:+ ") -> " +:+ doi +:+ String "010" EmptyString)
  = <[name := doi]> m.
Proof.
  intros Hname Hsname Hparen Hdoi Hsdoi Hnl.
  destruct (stripped_ends doi Hsdoi Hdoi) as (Hl & Hr & _).
  assert (Hstrip : strip ("(" +:+ name +:+ ") -> " +:+ doi
                          +:+ String "010" EmptyString)
                   = "(" +:+ name +:+ ") -> " +:+ doi).
  { unfold strip.
    assert (Hhead : forall x, lstrip ("(" +:+ x) = "(" +:+ x) by done.
    rewrite Hhead.
    assert (Hd : rstrip (doi +:+ String "010" EmptyString) = doi)
      by (rewrite rstrip_app_blank; done).
    replace ("(" +:+ name +:+ ") -> " +:+ doi +:+ String "010" EmptyString)
      with (("(" +:+ name +:+ ") -> ")
            +:+ (doi +:+ String "010" EmptyString))
      by (by rewrite !sapp_assoc).
    rewrite rstrip_app_keep; rewrite Hd; [|done].
    by rewrite !sapp_assoc. }
  unfold parse_line. rewrite Hstrip.
  assert (Hcontains : contains "->" ("(" +:+ name +:+ ") -> " +:+ doi) = true).
  { replace ("(" +:+ name +:+ ") -> " +:+ doi)
      with (("(" +:+ name +:+ ") ") +:+ "->" +:+ (" " +:+ doi)).
    - apply contains_app.
    - repeat (rewrite sapp_assoc || rewrite sapp_cons || rewrite sapp_empty_l).
      reflexivity. }
  rewrite Hcontains. cbn [truthy negb orb].
  rewrite match_citation_line_written by done.
  by rewrite Hsname, Hsdoi.
Qed.

(** Over any list of lines: a line of the legacy format, added at the end,
    sets its label to its DOI. *)
Lemma parse_lines_written before name doi :
  name <> EmptyString -> strip name = name -> has_char ")" name = false ->
  doi <> EmptyString -> strip doi = doi -> has_char "010" doi = false ->
  parse_citation_text_file
    (Some (before ++ ["(" +:+ name +:+ ") -> " +:+ doi
                      +:+ String "010" EmptyString]))
  = <[name := doi]> (parse_citation_text_file (Some before)).
Proof.
  intros Hname Hsname Hparen Hdoi Hsdoi Hnl.
  cbn [parse_citation_text_file]. rewrite fold_left_app. cbn [fold_left].
  by apply parse_line_written.
Qed.

(** *** The lines of a file *)

Lemma translate_plain s : forall b,
  has_char LF s = false -> has_char CR s = false ->
  translate b (s +:+ String LF EmptyString)
  = if b then match s with
              | EmptyString => EmptyString
              | _ => s +:+ String LF EmptyString
              end
    else s +:+ String LF EmptyString.
Proof.
  induction s as [|c s IH]; intros b Hlf Hcr.
  - rewrite sapp_empty_l. by destruct b.
  - cbn [has_char] in Hlf, Hcr.
    apply orb_false_iff in Hlf as [Hc1 Hlf].
    apply orb_false_iff in Hcr as [Hc2 Hcr].
    unfold is_char in Hc1, Hc2.
    rewrite sapp_cons. cbn [translate]. rewrite Hc1, Hc2.
    rewrite (IH false Hlf Hcr). by destruct b.
Qed.

Lemma translate_line s :
  has_char LF s = false -> has_char CR s = false ->
  translate false (s +:+ String LF EmptyString) = s +:+ String LF EmptyString.
Proof. intros Hlf Hcr. by rewrite translate_plain. Qed.

(** After a text that ends with a line feed the translation starts afresh. *)
Lemma translate_app c tail : forall b,
  translate b (c +:+ String LF tail)
  = translate b (c +:+ String LF EmptyString) +:+ translate false tail.
Proof.
  induction c as [|a c IH]; intros b.
  - rewrite !sapp_empty_l. cbn [translate].
    change (Ascii.eqb LF CR) with false. change (Ascii.eqb LF LF) with true.
    cbv iota. destruct b; [by rewrite sapp_empty_l|by rewrite sapp_cons, sapp_empty_l].
  - rewrite !sapp_cons. cbn [translate].
    destruct (Ascii.eqb a CR); [by rewrite IH, sapp_cons|].
    destruct (Ascii.eqb a LF).
    + destruct b; [by rewrite IH|by rewrite IH, sapp_cons].
    + by rewrite IH, sapp_cons.
Qed.

(** The translation of a text that ends with a line feed ends with one. *)
Lemma translate_ends c :
  (exists t, translate false (c +:+ String LF EmptyString)
             = t +:+ String LF EmptyString)
  /\ (translate true (c +:+ String LF EmptyString) = EmptyString
      \/ exists t, translate true (c +:+ String LF EmptyString)
                   = t +:+ String LF EmptyString).
Proof.
  induction c as [|a c [[t0 IH0] IH1]].
  - rewrite sapp_empty_l. cbn [translate].
    change (Ascii.eqb LF CR) with false. change (Ascii.eqb LF LF) with true.
    cbv iota. split; [by exists EmptyString|by left].
  - rewrite sapp_cons. cbn [translate].
    assert (Hcr : exists t, String LF (translate true (c +:+ String LF EmptyString))
                            = t +:+ String LF EmptyString).
    { destruct IH1 as [-> | [t1 ->]];
        [by exists EmptyString | by exists (String LF t1)]. }
    destruct (Ascii.eqb a CR); [by split; [|right]|].
    destruct (Ascii.eqb a LF).
    + split; [|right; by exists t0].
      exists (String LF t0). by rewrite IH0.
    + split; [|right]; exists (String a t0); by rewrite IH0.
Qed.

Lemma lines_from_line l : forall cur,
  has_char LF l = false ->
  lines_from cur (l +:+ String LF EmptyString)
  = [cur +:+ l +:+ String LF EmptyString].
Proof.
  induction l as [|c l IH]; intros cur Hlf.
  - rewrite sapp_empty_l. cbn [lines_from].
    change (Ascii.eqb LF LF) with true. by cbv iota.
  - cbn [has_char] in Hlf. apply orb_false_iff in Hlf as [Hc Hlf].
    unfold is_char in Hc.
    rewrite sapp_cons. cbn [lines_from]. rewrite Hc, (IH _ Hlf).
    by rewrite sapp_assoc, sapp_cons, sapp_empty_l.
Qed.

Lemma lines_from_app t tail : forall cur,
  lines_from cur (t +:+ String LF tail)
  = lines_from cur (t +:+ String LF EmptyString)
    ++ lines_from EmptyString tail.
Proof.
  induction t as [|c t IH]; intros cur.
  - rewrite !sapp_empty_l. cbn [lines_from].
    change (Ascii.eqb LF LF) with true. by cbv iota.
  - rewrite !sapp_cons. cbn [lines_from].
    destruct (Ascii.eqb c LF); [|by apply IH].
    by rewrite IH.
Qed.

(** A line without line ends, written with its line feed after a text that
    is empty or ends with a line feed, is one more line of the file. *)
Lemma file_lines_written content l :
  content = EmptyString
  \/ (exists c, content = c +:+ String LF EmptyString) ->
  has_char LF l = false -> has_char CR l = false ->
  file_lines (content +:+ l +:+ String LF EmptyString)
  = file_lines content ++ [l +:+ String LF EmptyString].
Proof.
  intros [-> | [c ->]] Hlf Hcr; unfold file_lines.
  - rewrite sapp_empty_l, translate_line by done.
    rewrite lines_from_line by done. by rewrite sapp_empty_l.
  - rewrite sapp_assoc, sapp_cons, sapp_empty_l.
    rewrite translate_app, (translate_line l) by done.
    destruct (translate_ends c) as [[t ->] _].
    rewrite sapp_assoc, sapp_cons, sapp_empty_l.
    rewrite lines_from_app, (lines_from_line l) by done.
    by rewrite sapp_empty_l.
Qed.

(** X12: round trip of the legacy format through the file. When the text
    [(label) -> doi] and a line feed are written after a file that is empty
    or ends with a line feed, the file is read back as the map of the file
    before with the label set to the DOI, so that the last line for a label
    wins. This holds when the label is not empty and holds no [)], the DOI is
    not empty, neither holds a line feed or a carriage return, and neither
    has whitespace at its ends. *)
Theorem parse_citation_text_file_written content name doi :
  content = EmptyString
  \/ (exists c, content = c +:+ String LF EmptyString) ->
  name <> EmptyString -> strip name = name -> has_char ")" name = false ->
  has_char LF name = false -> has_char CR name = false ->
  doi <> EmptyString -> strip doi = doi ->
  has_char LF doi = false -> has_char CR doi = false ->
  parse_citation_text_file
    (Some (file_lines (content +:+ "(" +:+ name +:+ ") -> " +:+ doi
                       +:+ String LF EmptyString)))
  = <[name := doi]> (parse_citation_text_file (Some (file_lines content)))
  /\ parse_citation_text_file
       (Some (file_lines (content +:+ "(" +:+ name +:+ ") -> " +:+ doi
                          +:+ String LF EmptyString))) !! name
     = Some doi.
Proof.
  intros Hcontent Hname Hsname Hparen Hnlf Hncr Hdoi Hsdoi Hdlf Hdcr.
  assert (H : parse_citation_text_file
                (Some (file_lines (content +:+ "(" +:+ name +:+ ") -> "
                                   +:+ doi +:+ String LF EmptyString)))
              = <[name := doi]>
                  (parse_citation_text_file (Some (file_lines content)))).
  { replace (content +:+ "(" +:+ name +:+ ") -> " +:+ doi
             +:+ String LF EmptyString)
      with (content +:+ ("(" +:+ name +:+ ") -> " +:+ doi)
            +:+ String LF EmptyString)
      by (by rewrite !sapp_assoc).
    rewrite file_lines_written; [| done | |].
    - rewrite !sapp_assoc. by apply parse_lines_written.
    - rewrite !has_char_app, Hnlf, Hdlf. reflexivity.
    - rewrite !has_char_app, Hncr, Hdcr. reflexivity. }
  split; [done|]. rewrite H. apply lookup_insert_eq.
Qed.

Lemma parse_citation_text_file_written_witness :
  parse_citation_text_file
    (Some (file_lines
             (("# legacy list" +:+ String CR (String LF
                 ("(Smith, 2020) -> 10.1/a" +:+ String LF EmptyString)))
              +:+ "(" +:+ "Smith, 2020" +:+ ") -> " +:+ "10.1/b"
              +:+ String LF EmptyString))) !! "Smith, 2020"
  = Some "10.1/b".
Proof.
  apply (parse_citation_text_file_written
           ("# legacy list" +:+ String CR (String LF
              ("(Smith, 2020) -> 10.1/a" +:+ String LF EmptyString)))
           "Smith, 2020" "10.1/b");
    try reflexivity; try discriminate.
  right. exists ("# legacy list" +:+ String CR (String LF
                   "(Smith, 2020) -> 10.1/a")).
  reflexivity.
Defined.

End LegacyFacts.

(** ** DoiResolver: one lookup, whatever the service answers *)

Module ResolverMore.
Import Py Resolver ResolverFacts.

Lemma backoff_events_cons cid a b rest :
  backoff_events cid (a :: b :: rest)
  = Request cid :: Sleep (2 ^ a * 3) :: backoff_events cid (b :: rest).
Proof. reflexivity. Qed.

(** One turn of the loop of a lookup. *)
Lemma fetch_loop_cons service cid n attempt rest w :
  fetch_loop service cid n (attempt :: rest) w
  = let w1 := World (doi_cache w) (S (sent w)) (trace w ++ [Request cid]) in
    match service (sent w) with
    | Body doi => (Some doi, w1)
    | HttpError status_code =>
        if status_code =? 429 then
          if attempt <? n - 1 then
            fetch_loop service cid n rest
              (World (doi_cache w) (S (sent w))
                     ((trace w ++ [Request cid]) ++ [Sleep (2 ^ attempt * 3)]))
          else (Some None, w1)
        else (Some None, w1)
    | RequestFailed => (Some None, w1)
    | Uncaught => (None, w1)
    end.
Proof.
  cbn [fetch_loop]. step_bind. unfold http_get. cbv zeta.
  destruct (service (sent w)) as [doi|status_code| |]; try done.
  destruct (status_code =? 429); [|done].
  destruct (attempt <? n - 1); [|done].
  step_bind. by cbn [sleep emit doi_cache sent trace].
Qed.

(** The loop of a lookup with [k0] attempts left, the last of which is
    attempt [n - 1]: it stops at the first answer that is no 429, or when
    the attempts are used up. *)
Lemma fetch_loop_stops service cid n : forall k0 a w,
  n = Z.of_nat (a + S k0) ->
  exists k,
    (1 <= k <= S k0)%nat
    /\ (forall j, (j < k - 1)%nat -> service (sent w + j)%nat = HttpError 429)
    /\ ((k < S k0)%nat -> service (sent w + (k - 1))%nat <> HttpError 429)
    /\ fetch_loop service cid n (map Z.of_nat (seq a (S k0))) w
       = (match service (sent w + (k - 1))%nat with
          | Body doi => Some doi
          | Uncaught => None
          | _ => Some None
          end,
          World (doi_cache w) (sent w + k)
                (trace w ++ backoff_events cid (map Z.of_nat (seq a k)))).
Proof.
  induction k0 as [|k0 IH]; intros a w Hn.
  - exists 1%nat. split; [lia|]. split; [intros j Hj; lia|]. split; [lia|].
    change (map Z.of_nat (seq a 1)) with [Z.of_nat a].
    rewrite fetch_loop_cons. cbv zeta.
    replace (sent w + (1 - 1))%nat with (sent w) by lia.
    replace (sent w + 1)%nat with (S (sent w)) by lia.
    destruct (service (sent w)) as [doi|status_code| |]; try done.
    destruct (status_code =? 429); [|done].
    by destruct (Z.ltb_spec (Z.of_nat a) (n - 1)) as [Hlt|_]; [lia|].
  - change (map Z.of_nat (seq a (S (S k0))))
      with (Z.of_nat a :: map Z.of_nat (seq (S a) (S k0))).
    rewrite fetch_loop_cons. cbv zeta.
    assert (Hone : forall r : option (option string),
      service (sent w) <> HttpError 429 ->
      r = match service (sent w) with
          | Body doi => Some doi
          | Uncaught => None
          | _ => Some None
          end ->
      exists k,
        (1 <= k <= S (S k0))%nat
        /\ (forall j, (j < k - 1)%nat -> service (sent w + j)%nat = HttpError 429)
        /\ ((k < S (S k0))%nat -> service (sent w + (k - 1))%nat <> HttpError 429)
        /\ (r, World (doi_cache w) (S (sent w)) (trace w ++ [Request cid]))
           = (match service (sent w + (k - 1))%nat with
              | Body doi => Some doi
              | Uncaught => None
              | _ => Some None
              end,
              World (doi_cache w) (sent w + k)
                    (trace w ++ backoff_events cid (map Z.of_nat (seq a k))))).
    { intros r Hne ->. exists 1%nat.
      replace (sent w + (1 - 1))%nat with (sent w) by lia.
      replace (sent w + 1)%nat with (S (sent w)) by lia.
      split; [lia|]. split; [intros j Hj; lia|]. by split. }
    destruct (service (sent w)) as [doi|status_code| |] eqn:Hresp;
      [by apply Hone | | by apply Hone | by apply Hone].
    destruct (Z.eqb_spec status_code 429) as [->|Hne].
    + destruct (Z.ltb_spec (Z.of_nat a) (n - 1)) as [_|Hge]; [|lia].
      destruct (IH (S a) (World (doi_cache w) (S (sent w))
                      ((trace w ++ [Request cid]) ++ [Sleep (2 ^ Z.of_nat a * 3)])))
        as (k & Hk & Hbefore & Hlast & Hrun); [lia|].
      cbn [doi_cache sent trace] in *.
      exists (S k). split; [lia|]. split; [|split].
      * intros [|j] Hj; [by rewrite Nat.add_0_r|].
        replace (sent w + S j)%nat with (S (sent w) + j)%nat by lia.
        apply Hbefore. lia.
      * intros Hlt.
        replace (sent w + (S k - 1))%nat with (S (sent w) + (k - 1))%nat by lia.
        apply Hlast. lia.
      * rewrite Hrun.
        replace (sent w + (S k - 1))%nat with (S (sent w) + (k - 1))%nat by lia.
        f_equal. f_equal; [lia|].
        destruct k as [|k]; [lia|].
        change (map Z.of_nat (seq a (S (S k))))
          with (Z.of_nat a :: Z.of_nat (S a) :: map Z.of_nat (seq (S (S a)) k)).
        change (map Z.of_nat (seq (S a) (S k)))
          with (Z.of_nat (S a) :: map Z.of_nat (seq (S (S a)) k)).
        rewrite backoff_events_cons. by rewrite <- !app_assoc.
    + apply Hone; [|done]. by intros [= ?].
Qed.

(** The world after a lookup, in short. *)
Lemma fetch_stops_run service cid w :
  exists k r,
    fetch_doi_from_semantic_scholar service cid 5 w
    = (r, World (doi_cache w) (sent w + k)
                (trace w ++ backoff_events cid (map Z.of_nat (seq 0 k)))).
Proof.
  destruct (fetch_loop_stops service cid 5 4 0 w eq_refl)
    as (k & _ & _ & _ & Hrun).
  eexists k, _. exact Hrun.
Qed.

(** X13: a lookup stops at the first answer of the service that is not a
    429, or after its fifth request. It has then sent [k] requests, from 1
    to 5, slept after each of them but the last one, left the cache as it
    was, and its result is the DOI of a body read, no DOI after an error
    answer or a fifth 429, and the exception for one it does not catch. *)
Theorem fetch_stops_at_first_answer service cid w :
  exists k,
    (1 <= k <= 5)%nat
    /\ (forall j, (j < k - 1)%nat -> service (sent w + j)%nat = HttpError 429)
    /\ ((k < 5)%nat -> service (sent w + (k - 1))%nat <> HttpError 429)
    /\ fetch_doi_from_semantic_scholar service cid 5 w
       = (match service (sent w + (k - 1))%nat with
          | Body doi => Some doi
          | Uncaught => None
          | _ => Some None
          end,
          World (doi_cache w) (sent w + k)
                (trace w ++ backoff_events cid (map Z.of_nat (seq 0 k)))).
Proof.
  destruct (fetch_loop_stops service cid 5 4 0 w eq_refl)
    as (k & Hk & Hbefore & Hlast & Hrun).
  exists k. split; [done|]. split; [done|]. split; [done|].
  unfold fetch_doi_from_semantic_scholar. exact Hrun.
Qed.

(** X14: whatever the service answers, one lookup sends from 1 to 5
    requests, all for its own corpus id, leaves the cache as it was, and
    sleeps the first delays of 3, 6, 12, 24 seconds, so 45 seconds at most
    in all. *)
Theorem fetch_bounded service cid w :
  exists evs,
    trace (fetch_doi_from_semantic_scholar service cid 5 w).2 = trace w ++ evs
    /\ doi_cache (fetch_doi_from_semantic_scholar service cid 5 w).2
       = doi_cache w
    /\ sleeps evs `prefix_of` [3; 6; 12; 24]
    /\ fold_right Z.add 0 (sleeps evs) <= 45
    /\ (1 <= length (requests evs) <= 5)%nat
    /\ Forall (fun c => c = cid) (requests evs).
Proof.
  destruct (fetch_loop_stops service cid 5 4 0 w eq_refl)
    as (k & Hk & _ & _ & Hrun).
  change (fetch_doi_from_semantic_scholar service cid 5 w)
    with (fetch_loop service cid 5 (map Z.of_nat (seq 0 5)) w).
  rewrite Hrun. cbn [snd trace doi_cache].
  exists (backoff_events cid (map Z.of_nat (seq 0 k))).
  split; [done|]. split; [done|].
  assert (Hcases : (k = 1 \/ k = 2 \/ k = 3 \/ k = 4 \/ k = 5)%nat) by lia.
  destruct Hcases as [-> | [-> | [-> | [-> | ->]]]]; cbn.
  - split; [by exists [3; 6; 12; 24]|]. split; [lia|]. split; [lia|].
    by repeat constructor.
  - split; [by exists [6; 12; 24]|]. split; [lia|]. split; [lia|].
    by repeat constructor.
  - split; [by exists [12; 24]|]. split; [lia|]. split; [lia|].
    by repeat constructor.
  - split; [by exists [24]|]. split; [lia|]. split; [lia|].
    by repeat constructor.
  - split; [by exists []|]. split; [lia|]. split; [lia|].
    by repeat constructor.
Qed.

End ResolverMore.

(** ** The run: what resolution changes and what it leaves *)

Module MainMore.
Import Py Extractor Resolver ResolverFacts Legacy Renderer Main MainFacts.

(** [resolve_all], step by step: the merge, which never raises, then the
    lookups of the ids that the merged cache lacks, then the save. *)
Lemma resolve_all_unfold service m sections w :
  resolve_all service m sections w
  = let w1 := (import_legacy m sections w).2 in
    let to_fetch := filter (fun cid => doi_cache w1 !! cid = None)
                           (set_order (unique_corpus_ids sections)) in
    match fetch_all service (Z.of_nat (length to_fetch)) 1 to_fetch 0 w1 with
    | (Some fetch_count, w2) =>
        if 0 <? fetch_count then save_doi_cache w2 else (Some tt, w2)
    | (None, w2) => (None, w2)
    end.
Proof.
  unfold resolve_all. step_bind.
  destruct (import_legacy_run m sections w) as (cache1 & evs0 & -> & _).
  cbn [snd]. step_bind. rewrite select_to_fetch_run. cbv zeta. step_bind.
  destruct (fetch_all _ _ _ _ _ _) as [[fetch_count|] w2]; [|done].
  by destruct (0 <? fetch_count).
Qed.

Lemma fetch_all_count service total to_fetch : forall i fetch_count w n w',
  fetch_all service total i to_fetch fetch_count w = (Some n, w') ->
  n = fetch_count + Z.of_nat (length to_fetch).
Proof.
  induction to_fetch as [|cid rest IH]; intros i fetch_count w n w' Hrun.
  - cbn in Hrun. injection Hrun as <- _. cbn. lia.
  - cbn [fetch_all] in Hrun.
    rewrite (bind_run (emit _)) in Hrun. cbn [emit] in Hrun.
    rewrite (bind_run (fetch_doi_from_semantic_scholar _ _ _)) in Hrun.
    destruct (fetch_doi_from_semantic_scholar _ _ _ _) as [[doi|] w1]; [|done].
    rewrite (bind_run (cache_set _ _)) in Hrun. cbn [cache_set] in Hrun.
    rewrite (bind_run (if i <? total then sleep 2 else mret tt)) in Hrun.
    destruct ((if i <? total then sleep 2 else mret tt) _) as [[[]|] w2] eqn:Hp.
    + apply IH in Hrun. cbn [length]. lia.
    + by destruct (i <? total).
Qed.

(** The merge either does nothing at all or ends with a save of the cache
    it leaves. *)
Lemma import_loop_same m cs : forall n w n' w',
  import_loop m cs n w = (Some n', w') -> n <= n' /\ (n' = n -> w' = w).
Proof.
  induction cs as [|c cs IH]; intros n w n' w' Hrun.
  - cbn in Hrun. injection Hrun as <- <-. split; [lia|done].
  - cbn [import_loop] in Hrun.
    rewrite (bind_run (import_citation _ _ _)) in Hrun.
    rewrite import_citation_run in Hrun.
    destruct (m !! display c); [destruct (doi_cache w !! corpus_id c)|].
    + by apply IH.
    + apply IH in Hrun as [Hle Hsame]. split; lia.
    + by apply IH.
Qed.

Lemma import_legacy_sync m sections w :
  (import_legacy m sections w).2 = w
  \/ exists cache1,
       (import_legacy m sections w).2
       = World cache1 (sent w) (trace w ++ [SaveCache cache1]).
Proof.
  unfold import_legacy. destruct (decide (m = ∅)); [by left|].
  step_bind.
  destruct (import_loop_run m (citations_of sections) 0 w)
    as (n' & cache' & Hrun & _).
  pose proof (import_loop_same _ _ _ _ _ _ Hrun) as [Hle Hsame].
  rewrite Hrun. destruct (Z.ltb_spec 0 n').
  - right. by exists cache'.
  - left. rewrite ret_run. cbn [snd]. apply Hsame. lia.
Qed.

(** With every cited id in the cache, nothing is left to do. *)
Lemma import_loop_cached m cs : forall n w,
  (forall c, c ∈ cs -> is_Some (doi_cache w !! corpus_id c)) ->
  import_loop m cs n w = (Some n, w).
Proof.
  induction cs as [|c cs IH]; intros n w Hcached; [done|].
  cbn [import_loop]. step_bind. rewrite import_citation_run.
  destruct (Hcached c (list_elem_of_here _ _)) as [v ->].
  destruct (m !! display c);
    apply IH; intros c' Hc'; apply Hcached; by apply list_elem_of_further.
Qed.

Lemma resolve_all_cached service m sections w :
  (forall c, c ∈ citations_of sections -> is_Some (doi_cache w !! corpus_id c)) ->
  resolve_all service m sections w = (Some tt, w).
Proof.
  intros Hcached. rewrite resolve_all_unfold. cbv zeta.
  assert (Hmerge : import_legacy m sections w = (Some tt, w)).
  { unfold import_legacy. destruct (decide (m = ∅)); [done|].
    step_bind. by rewrite import_loop_cached. }
  rewrite Hmerge. cbn [snd].
  assert (Hnone : filter (fun cid => doi_cache w !! cid = None)
                         (set_order (unique_corpus_ids sections)) = []).
  { destruct (filter _ _) as [|cid rest] eqn:Hf; [done|].
    assert (Hcid : cid ∈ cid :: rest) by apply list_elem_of_here.
    rewrite <- Hf in Hcid. apply list_elem_of_filter in Hcid as [Hnone Hcid].
    apply elem_of_elements, elem_of_unique_corpus_ids in Hcid
      as (c & Hc & <-).
    destruct (Hcached c Hc) as [v Hv]. by rewrite Hv in Hnone. }
  by rewrite Hnone.
Qed.

(** The three parts of [resolve_all] and what each leaves in the trace and
    in the cache. *)
Lemma resolve_all_parts service m sections w :
  exists cache1 evs0 r cache2 k evs1 tail,
    (import_legacy m sections w).2
    = World cache1 (sent w) (trace w ++ evs0)
    /\ fetch_calls evs0 = [] /\ fetch_calls tail = []
    /\ fetch_calls evs1
       `prefix_of` filter (fun cid => cache1 !! cid = None)
                          (set_order (unique_corpus_ids sections))
    /\ (is_Some r ->
        fetch_calls evs1
        = filter (fun cid => cache1 !! cid = None)
                 (set_order (unique_corpus_ids sections)))
    /\ (forall cid, cid ∉ fetch_calls evs1 -> cache2 !! cid = cache1 !! cid)
    /\ resolve_all service m sections w
       = (r, World cache2 (sent w + k) (trace w ++ evs0 ++ evs1 ++ tail)).
Proof.
  rewrite resolve_all_unfold. cbv zeta.
  destruct (import_legacy_run m sections w)
    as (cache1 & evs0 & -> & Hevs0 & _).
  cbn [snd doi_cache].
  set (to_fetch := filter (fun cid => cache1 !! cid = None)
                          (set_order (unique_corpus_ids sections))).
  destruct (fetch_all_run service (Z.of_nat (length to_fetch)) to_fetch 1 0
              (World cache1 (sent w) (trace w ++ evs0)))
    as (r1 & cache2 & k & evs1 & -> & Hpre & Hall & Hframe & _).
  cbn [doi_cache sent trace] in *.
  assert (Hcalls0 : fetch_calls evs0 = [])
    by (destruct Hevs0 as [-> | ->]; done).
  destruct r1 as [fetch_count|].
  - destruct (Hall ltac:(by eexists)) as [Heq _].
    destruct (0 <? fetch_count).
    + exists cache1, evs0, (Some tt), cache2, k, evs1, [SaveCache cache2].
      repeat (split; [done|]).
      unfold save_doi_cache. cbn [doi_cache sent trace].
      by rewrite <- !app_assoc.
    + exists cache1, evs0, (Some tt), cache2, k, evs1, [].
      repeat (split; [done|]). by rewrite app_nil_r, <- !app_assoc.
  - exists cache1, evs0, None, cache2, k, evs1, [].
    split; [done|]. split; [done|]. split; [done|]. split; [done|].
    split; [by intros [? ?]|]. split; [done|].
    by rewrite app_nil_r, <- !app_assoc.
Qed.

(** X15: resolution as a whole, the merge, the lookups and the saves, leaves
    every entry that the cache had at the start as it was, whether the run
    completes or an exception stops it: an id that is cached is never
    looked up again and never overwritten. *)
Theorem resolve_all_keeps_entries service m sections w cid :
  is_Some (doi_cache w !! cid) ->
  doi_cache (resolve_all service m sections w).2 !! cid = doi_cache w !! cid
  /\ forall evs,
       trace (resolve_all service m sections w).2 = trace w ++ evs ->
       (cid ∉ fetch_calls evs) /\ (cid ∉ requests evs).
Proof.
  intros Hcid.
  destruct (resolve_all_run service m sections w)
    as (r & cache2 & k & evs & -> & _ & Hin & Hsub & _ & _ & Hkeep).
  cbn [snd doi_cache trace]. split; [by apply Hkeep|].
  intros evs' Heq. apply app_inv_head in Heq as <-.
  assert (Hnot : cid ∉ fetch_calls evs).
  { intros Hc. apply Hin in Hc as (_ & Hnone & _).
    rewrite Hnone in Hcid. by destruct Hcid. }
  split; [done|]. intros Hreq. by apply Hnot, Hsub.
Qed.

Lemma resolve_all_keeps_entries_witness :
  doi_cache
    (resolve_all (fun _ => Body (Some "10.9/other")) ∅
       [MkSection "Findings" "text" None [Citation "5" "(X)" (JObj [])]]
       (World {["5" := None]} 0 [])).2 !! "5"
  = doi_cache (World {["5" := None]} 0 []) !! "5".
Proof.
  refine (proj1 (resolve_all_keeps_entries
            (fun _ => Body (Some "10.9/other")) ∅
            [MkSection "Findings" "text" None [Citation "5" "(X)" (JObj [])]]
            (World {["5" := None]} 0 []) "5" _)).
  vm_compute. by eexists.
Defined.

(** X16: resolution adds no key to the cache but corpus ids cited in the
    report: a key of the cache after it was a key before it, or is the
    corpus id of a citation. *)
Theorem resolve_all_adds_cited_only service m sections w cid :
  is_Some (doi_cache (resolve_all service m sections w).2 !! cid) ->
  is_Some (doi_cache w !! cid) \/ cid ∈ unique_corpus_ids sections.
Proof.
  destruct (resolve_all_parts service m sections w)
    as (cache1 & evs0 & r & cache2 & k & evs1 & tail
        & Hmerge & _ & _ & Hpre & _ & Hframe & ->).
  cbn [snd doi_cache]. intros Hcid.
  destruct (decide (cid ∈ fetch_calls evs1)) as [Hin|Hnin].
  - right. eapply elem_of_prefix in Hin; [|exact Hpre].
    apply list_elem_of_filter in Hin as [_ Hin]. by apply elem_of_elements.
  - rewrite Hframe in Hcid by done.
    destruct (import_legacy_run m sections w)
      as (cache' & evs' & Heq & _ & _ & Horigin).
    rewrite Heq in Hmerge. injection Hmerge as -> _.
    destruct (Horigin cid Hcid) as [?|(c & Hc & <- & _)]; [by left|].
    right. apply elem_of_unique_corpus_ids. by exists c.
Qed.

Lemma resolve_all_adds_cited_only_witness :
  is_Some (doi_cache (World {["9" := Some "10.1/old"]} 0 []) !! "1")
  \/ "1" ∈ unique_corpus_ids
             [MkSection "Findings" "text" None [Citation "1" "(A, 2020)" (JObj [])]].
Proof.
  apply (resolve_all_adds_cited_only (fun _ => Body (Some "10.1/x")) ∅
           [MkSection "Findings" "text" None [Citation "1" "(A, 2020)" (JObj [])]]
           (World {["9" := Some "10.1/old"]} 0 []) "1").
  vm_compute. by eexists.
Defined.

(** X17: when every cited corpus id is a key of the cache, [main] sends no
    request, sleeps never and saves nothing, whatever the service would
    answer and whatever the legacy file holds: it leaves the world as it
    was and writes the report from the cache. *)
Theorem main_warm_cache clean_text service report_data legacy_file w :
  (forall c,
     c ∈ citations_of (extract_sections_with_content clean_text report_data) ->
     is_Some (doi_cache w !! corpus_id c)) ->
  main clean_text service report_data legacy_file w
  = (Some (write_columns
             (left_content (default "No query found" (rep_query report_data))
                (extract_sections_with_content clean_text report_data))
             (right_content (doi_cache w)
                (extract_sections_with_content clean_text report_data))),
     w).
Proof.
  intros Hcached. unfold main. step_bind.
  rewrite resolve_all_cached by done. apply render_pure.
Qed.

Lemma main_warm_cache_witness :
  (main Cleaner.clean_text (fun _ => Uncaught)
     (Report (Some "why")
        (Some [RawSection (Some "Findings") (Some "text") None
                 (Some [RawCitation (Some 5) (Some "(X)") None])]))
     None (World {["5" := Some "10.1/a"]} 0 [])).2
  = World {["5" := Some "10.1/a"]} 0 [].
Proof.
  rewrite (main_warm_cache Cleaner.clean_text (fun _ => Uncaught)
     (Report (Some "why")
        (Some [RawSection (Some "Findings") (Some "text") None
                 (Some [RawCitation (Some 5) (Some "(X)") None])]))
     None (World {["5" := Some "10.1/a"]} 0 [])); [done|].
  intros c Hc. vm_compute in Hc. apply list_elem_of_singleton in Hc as ->.
  vm_compute. by eexists.
Defined.

(** X18: once resolution has completed, resolving the same report again
    does nothing, whatever the service and the legacy file are then: no
    request, no sleep, no save, the same cache. *)
Theorem resolve_all_again service m sections w w' service' m' :
  resolve_all service m sections w = (Some tt, w') ->
  resolve_all service' m' sections w' = (Some tt, w').
Proof.
  intros Hrun. apply resolve_all_cached.
  intros c Hc. by eapply cache_covers_citations_run.
Qed.

Lemma resolve_all_again_witness :
  resolve_all (fun _ => Uncaught) {["(A, 2020)" := "10.9/legacy"]}
    [MkSection "Findings" "text" None [Citation "1" "(A, 2020)" (JObj [])]]
    (resolve_all (fun _ => Body (Some "10.1/x")) ∅
       [MkSection "Findings" "text" None [Citation "1" "(A, 2020)" (JObj [])]]
       (World ∅ 0 [])).2
  = (Some tt,
     (resolve_all (fun _ => Body (Some "10.1/x")) ∅
        [MkSection "Findings" "text" None [Citation "1" "(A, 2020)" (JObj [])]]
        (World ∅ 0 [])).2).
Proof.
  apply (resolve_all_again (fun _ => Body (Some "10.1/x")) ∅
           [MkSection "Findings" "text" None [Citation "1" "(A, 2020)" (JObj [])]]
           (World ∅ 0 [])).
  by vm_compute.
Defined.

(** X19: when resolution completes, the cache file is up to date: either
    the run changed nothing at all, or its last act was to save the very
    cache that rendering then reads. *)
Theorem resolve_all_saved service m sections w w' :
  resolve_all service m sections w = (Some tt, w') ->
  w' = w \/ last (trace w') = Some (SaveCache (doi_cache w')).
Proof.
  rewrite resolve_all_unfold. cbv zeta.
  set (w1 := (import_legacy m sections w).2).
  set (to_fetch := filter (fun cid => doi_cache w1 !! cid = None)
                          (set_order (unique_corpus_ids sections))).
  destruct (fetch_all service (Z.of_nat (length to_fetch)) 1 to_fetch 0 w1)
    as [[fetch_count|] w2] eqn:Hfetch; [|done].
  pose proof (fetch_all_count _ _ _ _ _ _ _ _ Hfetch) as Hcount.
  destruct (Z.ltb_spec 0 fetch_count) as [Hpos|Hzero].
  - unfold save_doi_cache. intros [= <-]. right.
    cbn [trace doi_cache]. apply last_snoc.
  - intros [= <-].
    assert (Hnil : to_fetch = []) by (destruct to_fetch; [done | cbn in Hcount; lia]).
    rewrite Hnil in Hfetch. cbn in Hfetch. injection Hfetch as _ <-.
    subst w1. destruct (import_legacy_sync m sections w) as [-> | [cache1 ->]].
    + by left.
    + right. cbn [trace doi_cache]. apply last_snoc.
Qed.

Lemma resolve_all_saved_witness :
  (resolve_all (fun _ => Body (Some "10.1/x")) ∅
     [MkSection "Findings" "text" None [Citation "1" "(A, 2020)" (JObj [])]]
     (World ∅ 0 [])).2 = World ∅ 0 []
  \/ last (trace (resolve_all (fun _ => Body (Some "10.1/x")) ∅
             [MkSection "Findings" "text" None [Citation "1" "(A, 2020)" (JObj [])]]
             (World ∅ 0 [])).2)
     = Some (SaveCache
               (doi_cache (resolve_all (fun _ => Body (Some "10.1/x")) ∅
                  [MkSection "Findings" "text" None
                     [Citation "1" "(A, 2020)" (JObj [])]]
                  (World ∅ 0 [])).2)).
Proof.
  apply (resolve_all_saved (fun _ => Body (Some "10.1/x")) ∅
           [MkSection "Findings" "text" None [Citation "1" "(A, 2020)" (JObj [])]]
           (World ∅ 0 [])).
  by vm_compute.
Defined.



End MainMore.

(** ** ReportExtractor and ReportRenderer: sizes and keys *)

Module RenderMore.
Import Py PyFacts Extractor Renderer RendererFacts.

Lemma first_doi_is_Some cache name cs :
  is_Some (first_doi cache name cs) <-> name ∈ display <$> cs.
Proof.
  induction cs as [|c cs IH]; cbn [first_doi fmap list_fmap].
  - split; [by intros [? ?] | by intros ?%elem_of_nil].
  - rewrite elem_of_cons. destruct (decide (display c = name)) as [<-|Hne].
    + split; [by left | by eexists].
    + rewrite IH. split; [by right | by intros [?|?]].
Qed.

(** X21: the reference list has one line for each display name of the
    report, however many citations share the name and whatever the cache
    holds; the right column is 8 lines longer. *)
Theorem reference_lines_count cache sections :
  length (reference_lines cache sections)
  = size (list_to_set (display <$> flat_map sec_citations sections)
          : gset string)
  /\ length (right_content cache sections)
     = (8 + size (list_to_set (display <$> flat_map sec_citations sections)
                  : gset string))%nat.
Proof.
  change (flat_map sec_citations sections) with (citations_of sections).
  destruct (build_references_spec cache sections) as [Hnd Hmem].
  assert (Hlen : length (reference_lines cache sections)
                 = size (list_to_set (display <$> citations_of sections)
                         : gset string)).
  { unfold reference_lines.
    rewrite length_map, (Permutation_length (sorted_perm _)).
    rewrite <- (length_fmap fst), <- (size_list_to_set (C := gset string))
      by done.
    f_equal. apply set_eq. intros name.
    rewrite !elem_of_list_to_set, <- (first_doi_is_Some cache).
    rewrite list_elem_of_fmap. split.
    - intros ([n doi] & -> & Hin). apply Hmem in Hin. by eexists.
    - intros [doi Hdoi]. exists (name, doi). split; [done|]. by apply Hmem. }
  split; [done|]. unfold right_content.
  rewrite !length_app, Hlen. cbn [length]. lia.
Qed.

(** X22: the preview of a table never takes more than 9 lines, whatever the
    number of rows; a table with columns and more than 5 rows ends with the
    line that counts the rows it does not show. *)
Theorem format_table_bounded table width :
  (length (format_table table width) <= 9)%nat
  /\ (forall t columns rows,
        table = Some t ->
        tbl_columns t = Some columns -> columns <> [] ->
        tbl_rows t = Some rows -> (5 < length rows)%nat ->
        last (format_table table width)
        = Some ("  ... and " +:+ str_int (Z.of_nat (length rows) - 5)
                +:+ " more rows")).
Proof.
  split.
  - unfold format_table. destruct table as [t|]; [|cbn; lia].
    destruct (negb (table_truthy t)); [cbn; lia|].
    set (header := if truthy (default "Table" (tbl_title t))
                   then ["TABLE: " +:+ default "Table" (tbl_title t); ""]
                   else []).
    assert (Hh : (length header <= 2)%nat)
      by (subst header; destruct (truthy _); cbn; lia).
    destruct (_ || _).
    + rewrite length_app. cbn [length]. lia.
    + pose proof (length_take (default [] (tbl_rows t)) 5%nat) as Htake.
      destruct (5 <? _); rewrite !length_app, ?length_map, ?Htake;
        cbn [length]; lia.
  - intros t columns rows -> Hcols Hne Hrows Hmany.
    unfold format_table.
    assert (Htruthy : table_truthy t = true)
      by (unfold table_truthy; rewrite Hcols; by destruct (tbl_title t)).
    rewrite Htruthy, Hcols, Hrows. cbn [negb default from_option id].
    destruct columns as [|col columns]; [done|].
    destruct rows as [|r rows]; [cbn in Hmany; lia|]. cbn [orb].
    destruct (Z.ltb_spec 5 (Z.of_nat (length (r :: rows)))) as [_|Hle];
      [|lia].
    apply last_snoc.
Qed.

Lemma format_table_bounded_witness :
  last (format_table
          (Some (Table (Some "Results") (Some [JStr "Model"])
                   (Some (replicate 7 (Row None (Some "row")))) None []))
          40)
  = Some ("  ... and " +:+ str_int (Z.of_nat 7 - 5) +:+ " more rows").
Proof.
  apply (proj2 (format_table_bounded
                  (Some (Table (Some "Results") (Some [JStr "Model"])
                           (Some (replicate 7 (Row None (Some "row"))))
                           None []))
                  40)
           (Table (Some "Results") (Some [JStr "Model"])
              (Some (replicate 7 (Row None (Some "row")))) None [])
           [JStr "Model"] (replicate 7 (Row None (Some "row"))));
    [reflexivity | reflexivity | discriminate | reflexivity | cbn; lia].
Defined.

Lemma str_int_inj a b : str_int a = str_int b -> a = b.
Proof.
  unfold str_int. intros H.
  assert (Hnil : forall z, Z.to_int z <> Decimal.Pos Decimal.Nil
                           /\ Z.to_int z <> Decimal.Neg Decimal.Nil).
  { intros z. split; intros Hz; pose proof (f_equal Z.of_int Hz) as Hz';
      rewrite DecimalZ.of_to in Hz'; cbn in Hz'; subst z;
      vm_compute in Hz; discriminate Hz. }
  apply DecimalZ.to_int_inj.
  apply (f_equal NilZero.int_of_string) in H.
  rewrite !NilZero.isi in H by apply Hnil. by injection H.
Qed.

(** X23: two citation records with different corpus ids get different keys
    of the cache: as texts the ids stay apart. *)
Theorem extract_citation_keys c1 c2 k1 k2 :
  extract_citation c1 = Some k1 -> extract_citation c2 = Some k2 ->
  rc_corpusId c1 <> rc_corpusId c2 ->
  corpus_id k1 <> corpus_id k2.
Proof.
  unfold extract_citation.
  destruct (rc_corpusId c1) as [n1|], (rc_id c1); try done.
  destruct (rc_corpusId c2) as [n2|], (rc_id c2); try done.
  intros [= <-] [= <-] Hne. cbn [corpus_id].
  intros Heq%str_int_inj. by subst.
Qed.

Lemma extract_citation_keys_witness : "5" <> "50".
Proof.
  apply (extract_citation_keys
           (RawCitation (Some 5) (Some "(A, 2020)") None)
           (RawCitation (Some 50) (Some "(B, 2021)") None)
           (Citation "5" "(A, 2020)" (JObj []))
           (Citation "50" "(B, 2021)" (JObj []))); done.
Defined.

End RenderMore.

(** ** The run: pacing of the lookups *)

Module PacingFacts.
Import Py Resolver ResolverFacts ResolverMore Legacy Renderer Main MainFacts MainMore.

Lemma backoff_sleeps_not_2 cid attempts :
  2 ∉ sleeps (backoff_events cid attempts).
Proof.
  induction attempts as [|a rest IH]; [by intros ?%elem_of_nil|].
  destruct rest as [|b rest].
  - cbn. by intros ?%elem_of_nil.
  - rewrite backoff_events_cons.
    change (sleeps (Request cid :: Sleep (2 ^ a * 3)
                    :: backoff_events cid (b :: rest)))
      with (2 ^ a * 3 :: sleeps (backoff_events cid (b :: rest))).
    intros [Heq | Hin]%elem_of_cons; [|done].
    apply (f_equal (fun z => z mod 3)) in Heq.
    rewrite Z.mod_mul in Heq by lia. discriminate Heq.
Qed.

Lemma count_2_not_elem (l : list Z) :
  2 ∉ l -> length (filter (fun s => s = 2) l) = 0%nat.
Proof.
  induction l as [|x l IH]; intros Hnin; [done|].
  apply not_elem_of_cons in Hnin as [Hne Hnin].
  rewrite filter_cons_False by done. by apply IH.
Qed.

(** The pause of 2 seconds comes after every lookup but the last one. *)
Lemma fetch_all_pacing service total to_fetch : forall i fetch_count w n w',
  i + Z.of_nat (length to_fetch) = total + 1 ->
  fetch_all service total i to_fetch fetch_count w = (Some n, w') ->
  exists evs,
    trace w' = trace w ++ evs
    /\ length (filter (fun s => s = 2) (sleeps evs))
       = (length to_fetch - 1)%nat.
Proof.
  induction to_fetch as [|cid rest IH]; intros i fetch_count w n w' Hi Hrun.
  - cbn in Hrun. injection Hrun as _ <-. exists []. by rewrite app_nil_r.
  - cbn [fetch_all] in Hrun.
    rewrite (bind_run (emit _)) in Hrun. cbn [emit] in Hrun.
    rewrite (bind_run (fetch_doi_from_semantic_scholar _ _ _)) in Hrun.
    destruct (fetch_stops_run service cid
                (World (doi_cache w) (sent w) (trace w ++ [FetchCall cid])))
      as (k & r & Hfetch).
    rewrite Hfetch in Hrun. cbn [doi_cache sent trace] in Hrun.
    destruct r as [doi|]; [|done].
    rewrite (bind_run (cache_set _ _)) in Hrun.
    cbn [cache_set doi_cache sent trace] in Hrun.
    rewrite (bind_run (if i <? total then sleep 2 else mret tt)) in Hrun.
    cbn [length] in Hi. rewrite Nat2Z.inj_succ in Hi.
    set (lookup := backoff_events cid (map Z.of_nat (seq 0 k))) in *.
    assert (Hlookup : length (filter (fun s => s = 2) (sleeps lookup)) = 0%nat)
      by apply count_2_not_elem, backoff_sleeps_not_2.
    destruct (Z.ltb_spec i total) as [Hlt|Hge].
    + cbn [sleep emit doi_cache sent trace] in Hrun.
      apply IH in Hrun as (evs & -> & Hcount); [|lia].
      cbn [trace].
      exists ([FetchCall cid] ++ lookup ++ [Sleep 2] ++ evs).
      split; [by rewrite <- !app_assoc|].
      rewrite !sleeps_app, !filter_app, !length_app, Hlookup, Hcount.
      change (sleeps [FetchCall cid]) with (@nil Z).
      change (sleeps [Sleep 2]) with [2].
      rewrite filter_nil, filter_cons_True, filter_nil by done.
      cbn [length]. destruct rest as [|x rest]; cbn [length] in *; lia.
    + rewrite ret_run in Hrun.
      apply IH in Hrun as (evs & -> & Hcount); [|lia].
      cbn [trace]. exists ([FetchCall cid] ++ lookup ++ evs).
      split; [by rewrite <- !app_assoc|].
      rewrite !sleeps_app, !filter_app, !length_app, Hlookup, Hcount.
      change (sleeps [FetchCall cid]) with (@nil Z). rewrite filter_nil.
      cbn [length]. destruct rest as [|x rest]; cbn [length] in *; lia.
Qed.

(** X24: when resolution completes, the pause of 2 seconds has been taken
    once less often than there were lookups: once after every lookup but the
    last, and never when there was one lookup or none. *)
Theorem resolve_all_pacing service m sections w w' :
  resolve_all service m sections w = (Some tt, w') ->
  exists evs,
    trace w' = trace w ++ evs
    /\ length (filter (fun s => s = 2) (sleeps evs))
       = (length (fetch_calls evs) - 1)%nat.
Proof.
  rewrite resolve_all_unfold. cbv zeta.
  destruct (import_legacy_run m sections w)
    as (cache1 & evs0 & -> & Hevs0 & _).
  cbn [snd doi_cache].
  set (to_fetch := filter (fun cid => cache1 !! cid = None)
                          (set_order (unique_corpus_ids sections))).
  destruct (fetch_all_run service (Z.of_nat (length to_fetch)) to_fetch 1 0
              (World cache1 (sent w) (trace w ++ evs0)))
    as (r1 & cache2 & k & evs1 & Hfetch & _ & Hall & _).
  rewrite Hfetch. destruct r1 as [fetch_count|]; [|done].
  destruct (Hall ltac:(by eexists)) as [Hcalls _].
  destruct (fetch_all_pacing service (Z.of_nat (length to_fetch)) to_fetch
              1 0 _ _ _ ltac:(lia) Hfetch)
    as (evs1' & Heq & Hcount).
  cbn [trace] in Heq. apply app_inv_head in Heq as <-.
  assert (Hs0 : sleeps evs0 = [] /\ fetch_calls evs0 = [])
    by (destruct Hevs0 as [-> | ->]; done).
  destruct Hs0 as [Hs0 Hc0].
  assert (Hdone : forall tail,
    sleeps tail = [] -> fetch_calls tail = [] ->
    length (filter (fun s => s = 2) (sleeps (evs0 ++ evs1 ++ tail)))
    = (length (fetch_calls (evs0 ++ evs1 ++ tail)) - 1)%nat).
  { intros tail Hst Hct.
    rewrite !sleeps_app, !fetch_calls_app, Hs0, Hc0, Hst, Hct.
    rewrite !app_nil_l, !app_nil_r. by rewrite Hcount, Hcalls. }
  destruct (0 <? fetch_count).
  - unfold save_doi_cache. intros [= <-]. cbn [trace doi_cache].
    exists (evs0 ++ evs1 ++ [SaveCache cache2]).
    split; [by rewrite <- !app_assoc|]. by apply Hdone.
  - intros [= <-]. cbn [trace].
    exists (evs0 ++ evs1 ++ []).
    split; [by rewrite app_nil_r, <- !app_assoc|]. by apply Hdone.
Qed.

Lemma resolve_all_pacing_witness :
  exists evs,
    trace (resolve_all (fun _ => Body (Some "10.1/x")) ∅
             [MkSection "Findings" "text" None
                [Citation "1" "(A, 2020)" (JObj []);
                 Citation "2" "(B, 2021)" (JObj [])]]
             (World ∅ 0 [])).2 = [] ++ evs
    /\ length (filter (fun s => s = 2) (sleeps evs))
       = (length (fetch_calls evs) - 1)%nat.
Proof.
  apply (resolve_all_pacing (fun _ => Body (Some "10.1/x")) ∅
           [MkSection "Findings" "text" None
              [Citation "1" "(A, 2020)" (JObj []);
               Citation "2" "(B, 2021)" (JObj [])]]
           (World ∅ 0 [])).
  by vm_compute.
Defined.

End PacingFacts.
